(** * workflow-handler: the ingestion endpoint and the extraction pipeline

    The ingestion route [src/app/api/interactions/route.ts] validates a
    posted batch with zod, spawns the Python pipeline with the validated
    batch as a JSON argument and answers at once.  This file embeds the
    route and proves what the specification says about it; the pipeline
    itself ([group_flows.py]) is not in the source tree and is written here
    from the specification's component design.

    The model, in one place:
    - a JavaScript value that came out of [request.json()] is a [json]
      tree; an object is the association list of its own properties in
      enumeration order; [undefined] is [None] of [option json];
    - a number is a double other than NaN, which no JSON text denotes:
      [JSON.parse] reads a literal beyond the range of a double as an
      infinity, and [JSON.stringify] prints a double by Number::toString
      and an infinity as [null];
    - a string is its sequence of UTF-8 bytes; a lone surrogate, which has
      none, is outside the model;
    - zod and the Node runtime are dependencies, not code of the
      repository; each call follows what the runtime does: zod's objects
      and records leave out a property named [__proto__], [path.join]
      normalises, [process.cwd()] throws when the working directory is
      gone, and [spawn] throws when the system refuses the command line
      (an argument of 128 KiB, say) but reports an interpreter that is
      missing through the [error] event of the handle it returns;
    - the handler runs in a small monad that collects its observable
      effects (console lines, spawned processes) and may throw. *)

From Stdlib Require Import ZArith String Ascii List Bool Lia.
From Corelib Require PrimFloat FloatOps SpecFloat.
From stdpp Require Import base option list strings pretty gmap.
Import ListNotations.

Local Open Scope Z_scope.
Local Open Scope string_scope.
Local Open Scope list_scope.

(** ** Numbers *)

Module Number.

(** The doubles a JSON text can denote: all but NaN. *)
Record number := {
  double : PrimFloat.float;
  not_nan : PrimFloat.is_nan double = false;
}.

Definition zero : number := {| double := PrimFloat.zero; not_nan := eq_refl |}.

Definition of_float (x : PrimFloat.float) : number :=
  match PrimFloat.is_nan x as b return (PrimFloat.is_nan x = b -> number) with
  | false => fun H => {| double := x; not_nan := H |}
  | true => fun _ => zero
  end eq_refl.

(** The double nearest to an integer, ties to even: what [JSON.parse]
    makes of an integer literal. *)
Definition int (n : Z) : number :=
  of_float (FloatOps.SF2Prim (SpecFloat.binary_normalize FloatOps.prec FloatOps.emax n 0 false)).

Definition infinity : number := {| double := PrimFloat.infinity; not_nan := eq_refl |}.

(** The double nearest to the quotient of two integers that are doubles
    themselves, the second not 0: what [JSON.parse] makes of a literal
    such as [0.5] or [1e-7]. *)
Definition ratio (a b : Z) : number :=
  of_float (PrimFloat.div (double (int a)) (double (int b))).

(** *** Number::toString

    For a positive finite double [m * 2^e], the digits [s] and the
    position [n] of the decimal point are such that [s] has as few digits
    as can be for [s * 10^(n - k)] to round to the double, and among
    those is the closest to it. *)

(** A positive rational [num / den] against a power of ten. *)
Definition below_power (num den n : Z) : bool :=
  if (0 <=? n)%Z then (num <? 10 ^ n * den)%Z else (num * 10 ^ (- n) <? den)%Z.

(** [10^(n-1) <= num/den < 10^n] *)
Definition in_decade (num den n : Z) : bool :=
  negb (below_power num den (n - 1)) && below_power num den n.

Fixpoint decade_from (fuel : nat) (num den n : Z) : Z :=
  match fuel with
  | O => n
  | S fuel' => if in_decade num den n then n else decade_from fuel' num den (n - 1)
  end.

(** The [n] with [10^(n-1) <= m * 2^e < 10^n]: the search starts just
    above the logarithm of the value, estimated from its length in bits. *)
Definition decade (m : positive) (e : Z) : Z :=
  let bits := (Z.log2 (Z.pos m) + 1 + e)%Z in
  let num := if (0 <=? e)%Z then (Z.pos m * 2 ^ e)%Z else Z.pos m in
  let den := if (0 <=? e)%Z then 1%Z else (2 ^ (- e))%Z in
  decade_from 8 num den (bits * 30103 / 100000 + 3).

(** The decimal [digits * 10^(point - k)], [k] the number of digits. *)
Record Decimal := { digits : Z; point : Z }.

Definition ceil_div (a b : Z) : Z := (- ((- a) / b))%Z.

(** The decimals of [k] digits and decade [n] that round to the double
    [m * 2^e] lie between the midpoints to its two neighbours, the
    midpoints included when [m] is even.  Of them, the closest to the
    double, with its distance to it as a fraction. *)
Definition closest (m : positive) (e : Z) (k n : Z) : option (Decimal * (Z * Z)) :=
  let q := (n - k)%Z in
  let unit := if (0 <=? e - 2)%Z then (2 ^ (e - 2))%Z else 1%Z in
  let den2 := if (0 <=? e - 2)%Z then 1%Z else (2 ^ (2 - e))%Z in
  let gap_below := if (Z.pos m =? 2 ^ 52)%Z && (-1074 <? e)%Z then 1%Z else 2%Z in
  let tens := if (0 <=? q)%Z then 1%Z else (10 ^ (- q))%Z in
  let den := if (0 <=? q)%Z then (10 ^ q * den2)%Z else den2 in
  let low := ((4 * Z.pos m - gap_below) * unit * tens)%Z in
  let mid := (4 * Z.pos m * unit * tens)%Z in
  let high := ((4 * Z.pos m + 2) * unit * tens)%Z in
  let closed := Z.even (Z.pos m) in
  let s_min := if closed then ceil_div low den else (low / den + 1)%Z in
  let s_max := if closed then (high / den)%Z else (ceil_div high den - 1)%Z in
  let first := Z.max s_min (10 ^ (k - 1)) in
  let last := Z.min s_max (10 ^ k - 1) in
  if (first <=? last)%Z then
    let nearest :=
      let f := (mid / den)%Z in
      match (2 * (mid - f * den) ?= den)%Z with
      | Lt => f
      | Gt => (f + 1)%Z
      | Eq => if Z.even f then f else (f + 1)%Z
      end in
    let s := Z.max first (Z.min last nearest) in
    Some ({| digits := s; point := n |}, (Z.abs (s * den - mid), den))
  else None.

Definition nearer (a b : Decimal * (Z * Z)) : Decimal * (Z * Z) :=
  let '(_, (da, na)) := a in
  let '(_, (db, nb)) := b in
  if (da * nb <=? db * na)%Z then a else b.

Definition best (a b : option (Decimal * (Z * Z))) : option (Decimal * (Z * Z)) :=
  match a, b with
  | Some x, Some y => Some (nearer x y)
  | Some x, None => Some x
  | None, y => y
  end.

(** The shortest decimal that rounds to the double: [k] digits, from 1
    up (17 always do). *)
Fixpoint shortest_from (fuel : nat) (m : positive) (e : Z) (n k : Z) : Decimal :=
  match best (closest m e k n) (best (closest m e k (n + 1)) (closest m e k (n - 1))) with
  | Some (d, _) => d
  | None =>
      match fuel with
      | O => {| digits := 0; point := 0 |}
      | S fuel' => shortest_from fuel' m e n (k + 1)
      end
  end.

Definition shortest (m : positive) (e : Z) : Decimal :=
  shortest_from 17 m e (decade m e) 1.

Fixpoint zeros (n : nat) : string :=
  match n with O => EmptyString | S n' => String "0" (zeros n') end.

(** The text of the digits [s] with the decimal point at [n]: plain up to
    21 digits before the point and down to 6 zeros after it, with an
    exponent beyond. *)
Definition layout (d : Decimal) : string :=
  let s := pretty (Z.to_N (digits d)) in
  let k := Z.of_nat (String.length s) in
  let n := point d in
  if (k <=? n)%Z && (n <=? 21)%Z then
    s +:+ zeros (Z.to_nat (n - k))
  else if (0 <? n)%Z && (n <=? 21)%Z then
    substring 0 (Z.to_nat n) s +:+ "." +:+ substring (Z.to_nat n) (Z.to_nat (k - n)) s
  else if (-6 <? n)%Z && (n <=? 0)%Z then
    "0." +:+ zeros (Z.to_nat (- n)) +:+ s
  else
    let e := (n - 1)%Z in
    (if (k =? 1)%Z then s
     else substring 0 1 s +:+ "." +:+ substring 1 (Z.to_nat (k - 1)) s)
    +:+ "e" +:+ (if (e <? 0)%Z then "-" else "+") +:+ pretty (Z.to_N (Z.abs e)).

Definition toString (x : number) : string :=
  match FloatOps.Prim2SF (double x) with
  | SpecFloat.S754_nan => "NaN"
  | SpecFloat.S754_zero _ => "0"
  | SpecFloat.S754_infinity s => if s then "-Infinity" else "Infinity"
  | SpecFloat.S754_finite s m e =>
      (if s then "-" else EmptyString) +:+ layout (shortest m e)
  end.

(** [isFinite(x)] *)
Definition is_finite (x : number) : bool :=
  match FloatOps.Prim2SF (double x) with
  | SpecFloat.S754_zero _ | SpecFloat.S754_finite _ _ _ => true
  | _ => false
  end.

End Number.

(** ** JSON values *)

Module JSON.

Unset Elimination Schemes.
Inductive json : Type :=
| JNull
| JBool (b : bool)
| JNum (n : Number.number)
| JStr (s : string)
| JArr (items : list json)
| JObj (props : list (string * json)).
Set Elimination Schemes.
(** The nested occurrences under [list] need an induction principle that
    reaches the items of an array and the values of an object. *)
Section Induction.
Variable P : json -> Prop.
Hypothesis HNull : P JNull.
Hypothesis HBool : forall b, P (JBool b).
Hypothesis HNum : forall n, P (JNum n).
Hypothesis HStr : forall s, P (JStr s).
Hypothesis HArr : forall items, Forall P items -> P (JArr items).
Hypothesis HObj : forall props, Forall (fun kv => P (snd kv)) props -> P (JObj props).

Fixpoint json_ind (v : json) : P v :=
  match v with
  | JNull => HNull
  | JBool b => HBool b
  | JNum n => HNum n
  | JStr s => HStr s
  | JArr items =>
      HArr items
        ((fix all (l : list json) : Forall P l :=
            match l with
            | [] => @List.Forall_nil _ P
            | x :: l' => @List.Forall_cons _ P x l' (json_ind x) (all l')
            end) items)
  | JObj props =>
      HObj props
        ((fix all (l : list (string * json)) : Forall (fun kv => P (snd kv)) l :=
            match l with
            | [] => @List.Forall_nil _ _
            | kv :: l' => @List.Forall_cons _ (fun kv => P (snd kv)) kv l' (json_ind (snd kv)) (all l')
            end) props)
  end.
End Induction.

(** [obj[key]] on an object's own properties; [undefined] when absent. *)
Fixpoint get (key : string) (props : list (string * json)) : option json :=
  match props with
  | [] => None
  | (k, v) :: rest => if String.eqb k key then Some v else get key rest
  end.

(** [Object.keys(obj)]. *)
Definition keys (props : list (string * json)) : list string := map fst props.

(** *** JSON.stringify *)

Definition hex_digit (n : N) : ascii :=
  ascii_of_N (if (n <? 10)%N then 48 + n else 87 + n)%N.

(** QuoteJSONString, one character at a time: the two-character escapes,
    [\u00xx] for the other control characters, the character itself
    otherwise. *)
Definition quote_char (c : ascii) : string :=
  let n := N_of_ascii c in
  if (n =? 34)%N then "\" +:+ String c ""
  else if (n =? 92)%N then "\\"
  else if (n =? 8)%N then "\b"
  else if (n =? 9)%N then "\t"
  else if (n =? 10)%N then "\n"
  else if (n =? 12)%N then "\f"
  else if (n =? 13)%N then "\r"
  else if (n <? 32)%N then
    "\u00" +:+ String (hex_digit (n / 16)) (String (hex_digit (n mod 16)) "")
  else String c "".

Fixpoint quote_chars (s : string) : string :=
  match s with
  | EmptyString => ""
  | String c rest => quote_char c +:+ quote_chars rest
  end.

Definition quote (s : string) : string :=
  String (ascii_of_N 34) (quote_chars s) +:+ String (ascii_of_N 34) "".

Fixpoint join (sep : string) (parts : list string) : string :=
  match parts with
  | [] => ""
  | [p] => p
  | p :: rest => p +:+ sep +:+ join sep rest
  end.

Fixpoint stringify (v : json) : string :=
  match v with
  | JNull => "null"
  | JBool true => "true"
  | JBool false => "false"
  | JNum n => if Number.is_finite n then Number.toString n else "null"
  | JStr s => quote s
  | JArr items =>
      "[" +:+ join "," ((fix each (l : list json) : list string :=
                           match l with
                           | [] => []
                           | x :: l' => stringify x :: each l'
                           end) items) +:+ "]"
  | JObj props =>
      "{" +:+ join "," ((fix each (l : list (string * json)) : list string :=
                           match l with
                           | [] => []
                           | (k, x) :: l' => (quote k +:+ ":" +:+ stringify x) :: each l'
                           end) props) +:+ "}"
  end.

End JSON.
Import JSON.

(** ** zod: the schema combinators the route uses *)

Module z.

(** [ZodParsedType], the fragment a JSON body can reach. *)
Inductive ZodParsedType :=
| undefined | null | boolean | number_t | string_t | array_t | object_t.

Definition getParsedType (data : option json) : ZodParsedType :=
  match data with
  | None => undefined
  | Some JNull => null
  | Some (JBool _) => boolean
  | Some (JNum _) => number_t
  | Some (JStr _) => string_t
  | Some (JArr _) => array_t
  | Some (JObj _) => object_t
  end.

Definition type_name (t : ZodParsedType) : String.string :=
  match t with
  | undefined => "undefined"
  | null => "null"
  | boolean => "boolean"
  | number_t => "number"
  | string_t => "string"
  | array_t => "array"
  | object_t => "object"
  end.

(** A path segment is a property name or an array index. *)
Definition PathSeg : Type := String.string + nat.

(** The only issue these schemas raise is [invalid_type]. *)
Record ZodIssue := {
  expected : ZodParsedType;
  received : ZodParsedType;
  path : list PathSeg;
}.

Definition message (i : ZodIssue) : String.string :=
  match received i with
  | undefined => "Required"
  | r => "Expected " +:+ type_name (expected i) +:+ ", received " +:+ type_name r
  end.

Definition issue_to_json (i : ZodIssue) : json :=
  JObj [("code", JStr "invalid_type");
        ("expected", JStr (type_name (expected i)));
        ("received", JStr (type_name (received i)));
        ("path", JArr (map (fun seg : PathSeg =>
                              match seg with
                              | inl k => JStr k
                              | inr i => JNum (Number.int (Z.of_nat i))
                              end) (path i)));
        ("message", JStr (message i))].

(** The result of [_parse]: the parsed value ([None] is [undefined]) or
    the issues raised below this point. *)
Inductive ParseReturn :=
| OK (value : option json)
| INVALID (issues : list ZodIssue).

Definition issues_of (r : ParseReturn) : list ZodIssue :=
  match r with OK _ => [] | INVALID issues => issues end.

Definition is_ok (r : ParseReturn) : bool :=
  match r with OK _ => true | INVALID _ => false end.

(** A schema is its [_parse] method: the path so far and the data in. *)
Definition ZodType : Type := list PathSeg -> option json -> ParseReturn.

Definition invalid_type (want : ZodParsedType) (here : list PathSeg)
    (data : option json) : ParseReturn :=
  INVALID [{| expected := want; received := getParsedType data; path := here |}].

Definition string : ZodType := fun here data =>
  match data with
  | Some (JStr _) => OK data
  | _ => invalid_type string_t here data
  end.

(** A JSON body holds no NaN, the one number [z.number()] refuses; an
    infinity is a number to it. *)
Definition number : ZodType := fun here data =>
  match data with
  | Some (JNum _) => OK data
  | _ => invalid_type number_t here data
  end.

Definition any : ZodType := fun _ data => OK data.

(** [schema.optional()]: [undefined] passes, anything else goes to the
    inner schema ([null] is not [undefined]). *)
Definition optional (inner : ZodType) : ZodType := fun here data =>
  match data with
  | None => OK None
  | Some _ => inner here data
  end.

(** Every item and every property is parsed before the results are merged,
    so the issues of all of them are reported, in order. *)
Definition merge (results : list ParseReturn) (build : list (option json) -> json)
    : ParseReturn :=
  if forallb is_ok results
  then OK (Some (build (map (fun r => match r with OK v => v | INVALID _ => None end)
                            results)))
  else INVALID (concat (map issues_of results)).

(** An item parsed to [undefined] would print as [null]. *)
Definition build_array (values : list (option json)) : json :=
  JArr (map (fun v => match v with Some x => x | None => JNull end) values).

(** The object that zod builds from the parsed properties.  A property
    named [__proto__] is never set on it.  A property whose parsed value is
    [undefined] is not printed by [JSON.stringify]: it is left out of the
    object here. *)
Definition build_object (names : list String.string) (values : list (option json)) : json :=
  JObj (omap (fun kv =>
                if String.eqb (fst kv) "__proto__" then None
                else match snd kv with Some x => Some (fst kv, x) | None => None end)
             (combine names values)).

Definition array (element : ZodType) : ZodType := fun here data =>
  match data with
  | Some (JArr items) =>
      merge (imap (fun i x => element (here ++ [inr i]) (Some x)) items) build_array
  | _ => invalid_type array_t here data
  end.

(** [z.record(valueType)]: string keys, every own property parsed by
    [valueType] and set under its key on a new object. *)
Definition record (valueType : ZodType) : ZodType := fun here data =>
  match data with
  | Some (JObj props) =>
      merge (map (fun kv => valueType (here ++ [inl (fst kv)]) (Some (snd kv))) props)
            (build_object (keys props))
  | _ => invalid_type object_t here data
  end.

(** [z.object(shape)] in its default mode, "strip": the result has the
    shape's keys only, in the shape's order; other keys of the input are
    neither an error nor copied. *)
Definition object (shape : list (String.string * ZodType)) : ZodType := fun here data =>
  match data with
  | Some (JObj props) =>
      merge (map (fun ks => snd ks (here ++ [inl (fst ks)]) (get (fst ks) props)) shape)
            (build_object (map fst shape))
  | _ => invalid_type object_t here data
  end.

End z.

(** ** Exceptions and the handler's monad *)

Inductive Error :=
| SyntaxError (msg : string)                 (* the body is not JSON *)
| ZodError (errors : list z.ZodIssue)        (* thrown by [schema.parse] *)
| OtherError (msg : string).

(** [error instanceof z.ZodError] *)
Definition instanceof_ZodError (e : Error) : bool :=
  match e with ZodError _ => true | _ => false end.

(** What an observer of the server sees: the lines on the console, and
    the processes for which [spawn] returned a handle. *)
Inductive LogArg :=
| Text (s : string)
| Thrown (e : Error)
| Issues (errors : list z.ZodIssue).

Inductive Effect :=
| ConsoleLog (args : list LogArg)
| ConsoleError (args : list LogArg)
| Spawn (command : string) (args : list string) (cwd : string).

Inductive Completion (A : Type) :=
| Return (a : A)
| Throw (e : Error).
Arguments Return {A} a.
Arguments Throw {A} e.

(** A computation: the effects it performed, in order, and how it ended. *)
Definition Run (A : Type) : Type := list Effect * Completion A.

Definition ret {A} (a : A) : Run A := ([], Return a).
Definition throw {A} (e : Error) : Run A := ([], Throw e).
Definition perform (e : Effect) : Run unit := ([e], Return tt).

Definition bind {A B} (m : Run A) (k : A -> Run B) : Run B :=
  match m with
  | (done, Return a) => let (more, r) := k a in (done ++ more, r)
  | (done, Throw e) => (done, Throw e)
  end.

(** [try { body } catch (error) { handler }] *)
Definition try_catch {A} (body : Run A) (handler : Error -> Run A) : Run A :=
  match body with
  | (done, Return a) => (done, Return a)
  | (done, Throw e) => let (more, r) := handler e in (done ++ more, r)
  end.

(** The monad's operations under stdpp's notation: [x ← m; k] and [m;; k]. *)
#[global] Instance Run_ret : MRet Run := @ret.
#[global] Instance Run_bind : MBind Run := fun A B k m => bind m k.

Definition effects {A} (r : Run A) : list Effect := fst r.
Definition completion {A} (r : Run A) : Completion A := snd r.

(** [schema.parse(data)]: the parsed value, or a thrown [ZodError] with
    every issue.  A defined input parsed to [undefined] does not occur with
    the schemas of the route; the branch is there for totality. *)
Definition parse (schema : z.ZodType) (data : json) : Run json :=
  match schema [] (Some data) with
  | z.OK (Some value) => ret value
  | z.OK None => throw (OtherError "parse returned undefined")
  | z.INVALID issues => throw (ZodError issues)
  end.

Definition errors (e : Error) : list z.ZodIssue :=
  match e with ZodError issues => issues | _ => [] end.

(** ** The runtime the route calls *)

Record NextRequest := {
  (* the body read as JSON, [None] when the text is not JSON *)
  body_json : option json;
}.

(** [await request.json()]; the text of the error stands for the one the
    runtime writes for the body at hand. *)
Definition request_json (request : NextRequest) : Run json :=
  match body_json request with
  | Some body => ret body
  | None => throw (SyntaxError "Unexpected token in JSON")
  end.

Record NextResponse := {
  status : Z;
  body : json;
}.

(** [NextResponse.json(body, { status })]; the status defaults to 200. *)
Definition NextResponse_json (body : json) (init : option Z) : NextResponse :=
  {| status := match init with Some s => s | None => 200 end; body := body |}.

(** The process the server runs in, and the system under it. *)
Record Host := {
  (* the working directory, [None] when it is gone *)
  cwd : option string;
  (* fs.existsSync *)
  existsSync : string -> bool;
  (* the error with which the system refuses a command, its arguments and
     its directory when [spawn] asks for it: E2BIG and the like *)
  spawn_error : string -> list string -> string -> option string;
}.

(** [process.cwd()] *)
Definition process_cwd (host : Host) : Run string :=
  match cwd host with
  | Some directory => ret directory
  | None => throw (OtherError "ENOENT: no such file or directory, uv_cwd")
  end.

(** *** path.join (POSIX) *)

Module Path.

(** The segments of a path between its separators. *)
Fixpoint split (p : string) : list string :=
  match p with
  | EmptyString => [EmptyString]
  | String c rest =>
      if Ascii.eqb c "/" then EmptyString :: split rest
      else match split rest with
           | segment :: more => String c segment :: more
           | [] => [String c EmptyString]
           end
  end.

(** normalizeString, one segment at a time; [kept] holds the segments kept
    so far, the last one first. *)
Definition resolve (allowAboveRoot : bool) (kept : list string) (segment : string)
    : list string :=
  if String.eqb segment "" || String.eqb segment "." then kept
  else if String.eqb segment ".." then
    match kept with
    | last :: before =>
        if String.eqb last ".." then (if allowAboveRoot then ".." :: kept else kept)
        else before
    | [] => if allowAboveRoot then [".."] else []
    end
  else segment :: kept.

Definition normalizeString (p : string) (allowAboveRoot : bool) : string :=
  JSON.join "/" (rev (fold_left (resolve allowAboveRoot) (split p) [])).

Definition starts_with_separator (p : string) : bool :=
  match p with String c _ => Ascii.eqb c "/" | EmptyString => false end.

Fixpoint ends_with_separator (p : string) : bool :=
  match p with
  | EmptyString => false
  | String c EmptyString => Ascii.eqb c "/"
  | String _ rest => ends_with_separator rest
  end.

Definition normalize (p : string) : string :=
  if String.eqb p "" then "."
  else
    let isAbsolute := starts_with_separator p in
    let trailingSeparator := ends_with_separator p in
    let q := normalizeString p (negb isAbsolute) in
    if String.eqb q "" then
      if isAbsolute then "/" else if trailingSeparator then "./" else "."
    else
      let q := if trailingSeparator then q +:+ "/" else q in
      if isAbsolute then "/" +:+ q else q.

(** [path.join(...parts)]: the parts that are not empty, joined by the
    separator and normalised. *)
Definition join (parts : list string) : string :=
  match List.filter (fun part => negb (String.eqb part "")) parts with
  | [] => "."
  | kept => normalize (JSON.join "/" kept)
  end.

End Path.

Definition path_join (parts : list string) : string := Path.join parts.

Inductive ChildProcess := child_process.

(** [spawn(command, args, { cwd, stdio })]: it throws when the system
    refuses the command line; otherwise the process is on its way and its
    handle is returned at once.  A process that then cannot start (its
    interpreter is missing), or that fails later, says so through the
    events of the handle. *)
Definition spawn (host : Host) (command : string) (args : list string) (cwd : string)
    : Run ChildProcess :=
  match spawn_error host command args cwd with
  | Some message => throw (OtherError message)
  | None => perform (Spawn command args cwd);; mret child_process
  end.

(** What a child process does after [spawn] returned. *)
Inductive ChildEvent :=
| StdoutData (data : string)
| StderrData (data : string)
| Close (code : option Z)             (* [null] when ended by a signal *)
| ErrorEvent (message : string).      (* the process could not be spawned *)

(** ** src/app/api/interactions/route.ts *)

Module Route.

Definition EventSchema : z.ZodType :=
  z.object [
    ("id", z.string);
    ("type", z.string);
    ("timestamp", z.number);
    ("tabId", z.number);
    ("windowId", z.number);
    ("url", z.optional z.string);
    ("title", z.optional z.string);
    ("payload", z.record z.any)
  ].

Definition BatchSchema : z.ZodType :=
  z.object [
    ("events", z.array EventSchema);
    ("timestamp", z.number)
  ].

(** The listeners of lines 48-64, by the event they are registered for. *)
Definition show_code (code : option Z) : string :=
  match code with Some n => pretty n | None => "null" end.

Definition pythonProcess_on (event : ChildEvent) : Effect :=
  match event with
  | StdoutData dataString => ConsoleLog [Text ("[Python stdout]: " +:+ dataString)]
  | StderrData dataString => ConsoleError [Text ("[Python stderr]: " +:+ dataString)]
  | Close code => ConsoleLog [Text ("[Python process] Exited with code: " +:+ show_code code)]
  | ErrorEvent message => ConsoleError [Text ("[Python process] Error: " +:+ message)]
  end.

Definition success_body : json :=
  JObj [("success", JBool true); ("message", JStr "Processing started in background")].

Definition invalid_payload_body (details : list z.ZodIssue) : json :=
  JObj [("error", JStr "Invalid payload"); ("details", JArr (map z.issue_to_json details))].

Definition internal_error_body : json :=
  JObj [("error", JStr "Internal server error")].

(** Lines 29-33, in the working directory [directory]. *)
Definition venvPython (directory : string) : string :=
  path_join [directory; "src/server/python/venv/bin/python"].

Definition pythonExecutable (host : Host) (directory : string) : string :=
  if existsSync host (venvPython directory) then venvPython directory else "python3".

(** The [try] block, lines 25-70; [process.cwd()] is called where the
    source calls it, and the arguments of [spawn] are evaluated from left
    to right before the call. *)
Definition POST_try (request : NextRequest) (host : Host) : Run NextResponse :=
  body ← request_json request;
  batch ← parse BatchSchema body;
  directory ← process_cwd host;
  let command := pythonExecutable host directory in
  scriptDirectory ← process_cwd host;
  let script := path_join [scriptDirectory; "src/server/python/group_flows.py"] in
  let argument := JSON.stringify batch in
  workingDirectory ← process_cwd host;
  pythonProcess ← spawn host command [script; argument]
                    (path_join [workingDirectory; "src/server/python"]);
  (* the listeners [pythonProcess_on] are registered here; nothing is awaited *)
  mret (NextResponse_json success_body None).

(** The [catch] block, lines 71-86. *)
Definition POST_catch (error : Error) : Run NextResponse :=
  perform (ConsoleError [Text "Error processing request:"; Thrown error]);;
  if instanceof_ZodError error then
    perform (ConsoleLog [Text "Validation errors:"; Issues (errors error)]);;
    mret (NextResponse_json (invalid_payload_body (errors error)) (Some 400))
  else
    mret (NextResponse_json internal_error_body (Some 500)).

Definition POST (request : NextRequest) (host : Host) : Run NextResponse :=
  try_catch (POST_try request host) POST_catch.

Definition is_spawn (e : Effect) : bool :=
  match e with Spawn _ _ _ => true | _ => false end.

(** The processes a run has spawned. *)
Definition spawned {A} (r : Run A) : list Effect := filter is_spawn (effects r).

(** One request from start to end: the handler's run and answer, then, if
    it spawned the pipeline, what the listeners print as the child's
    events arrive.  The answer is the handler's: it was sent before any
    event of the child. *)
Definition serve (request : NextRequest) (host : Host) (child : list ChildEvent)
    : Run NextResponse :=
  let (done, answer) := POST request host in
  (done ++ (if existsb is_spawn done then map pythonProcess_on child else []), answer).

(** The response a run ended with, if it ended with one. *)
Definition response {A} (r : Run A) : option A :=
  match completion r with Return a => Some a | Throw _ => None end.

End Route.

(** ** The words of the specification about the route, and the values
    the statements below name *)

Module Spec.

Definition is_string (v : option json) : Prop := exists s, v = Some (JStr s).
Definition is_number (v : option json) : Prop := exists n, v = Some (JNum n).
Definition is_object (v : option json) : Prop := exists props, v = Some (JObj props).
Definition is_optional_string (v : option json) : Prop := v = None \/ is_string v.

(** [{id, type, timestamp, tabId, windowId, url?, title?, payload}] *)
Definition well_formed_event (e : json) : Prop :=
  exists props, e = JObj props /\
    is_string (get "id" props) /\
    is_string (get "type" props) /\
    is_number (get "timestamp" props) /\
    is_number (get "tabId" props) /\
    is_number (get "windowId" props) /\
    is_optional_string (get "url" props) /\
    is_optional_string (get "title" props) /\
    is_object (get "payload" props).

(** [{events: [InteractionEvent], timestamp}] *)
Definition well_formed_batch (b : json) : Prop :=
  exists props items, b = JObj props /\
    get "events" props = Some (JArr items) /\
    Forall well_formed_event items /\
    is_number (get "timestamp" props).

(** The body passes validation: [BatchSchema.parse] returns. *)
Definition passes_validation (body : json) : Prop :=
  exists batch, completion (parse Route.BatchSchema body) = Return batch.

(** The eight fields of the event schema. *)
Definition event_fields : list string :=
  ["id"; "type"; "timestamp"; "tabId"; "windowId"; "url"; "title"; "payload"].

(** The events of a batch object and the payload of an event. *)
Definition events_of (batch : json) : list json :=
  match batch with
  | JObj props => match get "events" props with Some (JArr items) => items | _ => [] end
  | _ => []
  end.



(** The properties of an object other than [__proto__], in their order. *)
Definition without_proto (props : list (string * json)) : list (string * json) :=
  List.filter (fun kv => negb (String.eqb (fst kv) "__proto__")) props.

(** What validation makes of a payload. *)
Definition forwarded_payload (payload : json) : json :=
  match payload with
  | JObj props => JObj (without_proto props)
  | _ => payload
  end.

(** What validation makes of the value of each field of an event. *)
Definition event_out : list (string * (json -> json)) :=
  [("id", id); ("type", id); ("timestamp", id); ("tabId", id); ("windowId", id);
   ("url", id); ("title", id); ("payload", forwarded_payload)].

(** What validation keeps of an object: the listed properties that are
    there, in the order of the list, each through its function. *)
Definition pick (fields : list (string * (json -> json))) (props : list (string * json))
    : list (string * json) :=
  omap (fun kf => match get (fst kf) props with
                  | Some x => Some (fst kf, snd kf x)
                  | None => None
                  end) fields.

Definition strip_event (event : json) : json :=
  match event with
  | JObj props => JObj (pick event_out props)
  | _ => event
  end.

(** What [BatchSchema] returns for a batch it accepts. *)
Definition validated (items : list json) (n : Number.number) : json :=
  JObj [("events", JArr (map strip_event items)); ("timestamp", JNum n)].

(** A schema that, whenever it accepts its input, hands back [f] of it. *)
Definition yields (s : z.ZodType) (f : json -> json) : Prop :=
  forall here v w, s here v = z.OK w -> w = f <$> v.

(** The process the handler asks for, for a validated batch and in the
    working directory [directory] (lines 29-45), and the error with which
    the system refuses it, if it does. *)
Definition pipeline_process (host : Host) (directory : string) (batch : json) : Effect :=
  Spawn (Route.pythonExecutable host directory)
        [path_join [directory; "src/server/python/group_flows.py"]; JSON.stringify batch]
        (path_join [directory; "src/server/python"]).

Definition refusal (host : Host) (directory : string) (batch : json) : option string :=
  spawn_error host (Route.pythonExecutable host directory)
              [path_join [directory; "src/server/python/group_flows.py"];
               JSON.stringify batch]
              (path_join [directory; "src/server/python"]).

(** The run of the [catch] block on an error that is not a [ZodError]. *)
Definition internal_error (e : Error) : Run NextResponse :=
  ([ConsoleError [Text "Error processing request:"; Thrown e]],
   Return {| status := 500; body := Route.internal_error_body |}).

(** The answer to an accepted batch. *)
Definition success_response : NextResponse :=
  {| status := 200; body := Route.success_body |}.




End Spec.

(** ** The extraction pipeline

    The pipeline is [src/server/python/group_flows.py], which the route
    spawns; the file is not part of the source tree at hand.  The three
    stages below are written from the specification's component design. *)

Module Pipeline.

(** Modelled from the spec: the [TabSessionSummary] and [WorkflowCandidate]
    entities of the data model; group_flows.py, which declares them, is
    missing. *)
Record TabSessionSummary := {
  sessionId : string;
  tabId : Z;
  url : string;
  title : string;
  activitySummary : string;
  viewportSummary : string;
  startTs : Z;
  endTs : Z;
}.

Record WorkflowCandidate := {
  candidateStartTs : Z;
  candidateEndTs : Z;
  memberSessionIds : list string;
}.

(** The passed-in configuration of the boundary scan: the gap threshold,
    the maximum span of a window (counted in summaries) and the topical
    continuity read from the content of two neighbouring summaries. *)
Record Config := {
  gapThreshold : Z;
  maxSpan : nat;
  topicalContinuity : TabSessionSummary -> TabSessionSummary -> bool;
}.

Section BoundaryDetector.
Variable config : Config.

(** Modelled from the spec: the continuity predicate of BoundaryDetector
    (temporal proximity below the gap threshold and topical continuity);
    group_flows.py is missing.  [previous] is the last summary of the open
    window. *)
Definition continuity (previous next : TabSessionSummary) : bool :=
  (startTs next - endTs previous <? gapThreshold config)%Z &&
  topicalContinuity config previous next.

(** Modelled from the spec: a closed window becomes one candidate;
    group_flows.py is missing.  [first] opens the window, [more] are the
    summaries it grew by, oldest first. *)
Definition emit (first : TabSessionSummary) (more : list TabSessionSummary)
    : WorkflowCandidate :=
  {| candidateStartTs := startTs first;
     candidateEndTs := endTs (List.last more first);
     memberSessionIds := map sessionId (first :: more) |}.

(** Modelled from the spec: the expanding window of BoundaryDetector, one
    pass from left to right; group_flows.py is missing.  The open window
    is [first :: more]; it grows by [next] while the continuity predicate
    holds and the maximum span is not reached, and closes otherwise, the
    next window starting at [next]. *)
Fixpoint scan (first : TabSessionSummary) (more rest : list TabSessionSummary)
    : list WorkflowCandidate :=
  match rest with
  | [] => [emit first more]
  | next :: rest' =>
      if continuity (List.last more first) next
         && (S (length more) <? maxSpan config)%nat
      then scan first (more ++ [next]) rest'
      else emit first more :: scan next [] rest'
  end.

(** Modelled from the spec: BoundaryDetector, from the ordered summaries
    of a batch to its ordered candidates; group_flows.py is missing. *)
Definition BoundaryDetector (summaries : list TabSessionSummary)
    : list WorkflowCandidate :=
  match summaries with
  | [] => []
  | first :: rest => scan first [] rest
  end.

End BoundaryDetector.

(** Modelled from the spec: the three labels of WorkflowClassifier and the
    reading of the classification capability's response; group_flows.py is
    missing.  The capability answers with a text or not at all. *)
Inductive Label := WORKFLOW | NOISE | UNFINISHED.

Definition label_name (l : Label) : string :=
  match l with
  | WORKFLOW => "WORKFLOW"
  | NOISE => "NOISE"
  | UNFINISHED => "UNFINISHED"
  end.

Definition vocabulary : list string := map label_name [WORKFLOW; NOISE; UNFINISHED].

Inductive CapabilityResponse :=
| Answer (text : string)
| Unavailable.

(** Modelled from the spec: the validation of the capability's response
    by WorkflowClassifier (a response outside the vocabulary, or none, is
    NOISE); group_flows.py is missing. *)
Definition interpret (response : CapabilityResponse) : Label :=
  match response with
  | Answer text =>
      if String.eqb text "WORKFLOW" then WORKFLOW
      else if String.eqb text "UNFINISHED" then UNFINISHED
      else NOISE
  | Unavailable => NOISE
  end.

(** Modelled from the spec: WorkflowClassifier, which hands the candidate
    and its member summaries to the capability and validates the answer;
    group_flows.py is missing. *)
Definition WorkflowClassifier
    (capability : WorkflowCandidate -> list TabSessionSummary -> CapabilityResponse)
    (candidate : WorkflowCandidate) (members : list TabSessionSummary) : Label :=
  interpret (capability candidate members).

Definition out_of_vocabulary (response : CapabilityResponse) : Prop :=
  match response with
  | Answer text => text ∉ vocabulary
  | Unavailable => True
  end.

(** Modelled from the spec: the [ToolRef], [WorkflowStep] and [Workflow]
    entities; group_flows.py is missing. *)
Record ToolRef := {
  platform : string;
  operation : string;
}.

#[global] Instance ToolRef_eq_dec : EqDecision ToolRef.
Proof. solve_decision. Defined.

#[global] Instance ToolRef_countable : Countable ToolRef.
Proof.
  refine (inj_countable' (fun t => (platform t, operation t))
                         (fun p => {| platform := fst p; operation := snd p |}) _).
  intros []; reflexivity.
Defined.

Inductive Role := tool_role | browser_context.

Record WorkflowStep := {
  order : nat;
  description : string;
  role : Role;
  tool : option ToolRef;
}.

Record Workflow := {
  summary : string;
  steps : list WorkflowStep;
}.

(** Modelled from the spec: the tool-set signature, the set of distinct
    [ToolRef] across the steps; group_flows.py is missing. *)
Definition toolSetSignature (w : Workflow) : gset ToolRef :=
  list_to_set (omap tool (steps w)).

Inductive Decision := store | discard_as_duplicate.

(** Modelled from the spec: Deduplicator with its default policy (on a
    duplicate the incoming workflow is discarded, the stored one wins);
    group_flows.py is missing. *)
Definition Deduplicator (incoming : Workflow) (stored : list Workflow) : Decision :=
  if bool_decide (toolSetSignature incoming ∈ map toolSetSignature stored)
  then discard_as_duplicate
  else store.

(** Modelled from the spec: the store after one submission, and after a
    sequence of submissions starting from an empty store; group_flows.py
    and the store adapter are missing. *)
Definition submit (stored : list Workflow) (incoming : Workflow) : list Workflow :=
  match Deduplicator incoming stored with
  | store => stored ++ [incoming]
  | discard_as_duplicate => stored
  end.

Definition submit_all (submissions : list Workflow) : list Workflow :=
  foldl submit [] submissions.

(** The stored records with the signature of [w]. *)
Definition records_like (w : Workflow) (stored : list Workflow) : list Workflow :=
  filter (fun w' => toolSetSignature w' = toolSetSignature w) stored.

End Pipeline.

(** ** Sample requests *)

Module Sample.

Definition click : json :=
  JObj [("id", JStr "e1"); ("type", JStr "click");
        ("timestamp", JNum (Number.int 1700000000000));
        ("tabId", JNum (Number.int 7)); ("windowId", JNum (Number.int 1));
        ("url", JStr "https://jira.com/browse");
        ("selector", JStr "#create");
        ("payload", JObj [("x", JNum (Number.int 10));
                          ("target", JObj [("tag", JStr "BUTTON")])])].

Definition scroll : json :=
  JObj [("payload", JObj []); ("windowId", JNum (Number.int 1));
        ("tabId", JNum (Number.int 7));
        ("timestamp", JNum (Number.int 1700000000500)); ("type", JStr "scroll");
        ("id", JStr "e2")].

(** A well-formed batch, with a field of its own and one on an event that
    the schema does not name. *)
Definition batch : json :=
  JObj [("events", JArr [click; scroll]);
        ("timestamp", JNum (Number.int 1700000001000));
        ("source", JStr "extension")].

(** [tabId] is a string in the first event and [payload] is missing in the
    second. *)
Definition malformed : json :=
  JObj [("events",
         JArr [JObj [("id", JStr "e1"); ("type", JStr "click");
                     ("timestamp", JNum (Number.int 1));
                     ("tabId", JStr "7"); ("windowId", JNum (Number.int 1));
                     ("payload", JObj [])];
               JObj [("id", JStr "e2"); ("type", JStr "scroll");
                     ("timestamp", JNum (Number.int 2));
                     ("tabId", JNum (Number.int 7)); ("windowId", JNum (Number.int 1))]]);
        ("timestamp", JNum (Number.int 3))].

(** A keypress whose payload has, between two other keys, a key named
    [__proto__] (the text of the request spells it out), a number too
    large for a double and a string with a line break. *)
Definition keypress : json :=
  JObj [("id", JStr "e3"); ("type", JStr "keypress");
        ("timestamp", JNum (Number.int 1700000000900));
        ("tabId", JNum (Number.int 7)); ("windowId", JNum (Number.int 1));
        ("payload", JObj [("key", JStr ("a" +:+ String (ascii_of_N 10) "b"));
                          ("__proto__", JObj [("admin", JBool true)]);
                          ("weight", JNum Number.infinity)])].

Definition polluted : json :=
  JObj [("events", JArr [keypress]); ("timestamp", JNum (Number.int 1700000001000))].

(** The same event with a field the schema does not name, and a payload
    whose unknown keys are [meta] and [__proto__]. *)
Definition annotated : json :=
  JObj [("events",
         JArr [JObj [("id", JStr "e4"); ("type", JStr "hover");
                     ("timestamp", JNum (Number.int 1700000000950));
                     ("tabId", JNum (Number.int 7)); ("windowId", JNum (Number.int 1));
                     ("debug", JBool true);
                     ("payload", JObj [("__proto__", JStr "x");
                                       ("meta", JObj [("__proto__", JNull)])])]]);
        ("timestamp", JNum (Number.int 1700000001000))].

(** A paste of 128 KiB of text. *)
Definition pasted : string := N.iter 131072 (String "a") EmptyString.

Definition oversized : json :=
  JObj [("events",
         JArr [JObj [("id", JStr "e5"); ("type", JStr "paste");
                     ("timestamp", JNum (Number.int 1700000000990));
                     ("tabId", JNum (Number.int 7)); ("windowId", JNum (Number.int 1));
                     ("payload", JObj [("text", JStr pasted)])]]);
        ("timestamp", JNum (Number.int 1700000001000))].

(** A server in [/srv/app], without a virtual environment, on a system
    that refuses no command. *)
Definition host : Host :=
  {| cwd := Some "/srv/app";
     existsSync := fun _ => false;
     spawn_error := fun _ _ _ => None |}.

(** The same server after its directory was removed. *)
Definition adrift : Host :=
  {| cwd := None;
     existsSync := fun _ => false;
     spawn_error := fun _ _ _ => None |}.

(** A server at the root of a container, with the virtual environment, on
    a system that refuses an argument of 128 KiB or more, its closing NUL
    byte counted. *)
Definition container : Host :=
  {| cwd := Some "/";
     existsSync := fun _ => true;
     spawn_error := fun _ args _ =>
       if existsb (fun a => (131072 <=? Z.of_nat (String.length a) + 1)%Z) args
       then Some "spawn E2BIG" else None |}.

(** The pipeline prints a traceback and ends with code 1. *)
Definition crash : list ChildEvent :=
  [StdoutData "grouping events"; StderrData "Traceback (most recent call last)";
   Close (Some 1)].


Definition finished : list ChildEvent := [StdoutData "stored 1 workflow"; Close (Some 0)].

End Sample.

(** ** Sample pipeline data: scenario A of the specification *)

Module Scenario.
Import Pipeline.

Definition session (id : string) (site : string) (did : string) (from to : Z)
    : TabSessionSummary :=
  {| sessionId := id; tabId := 7; url := site; title := site;
     activitySummary := did; viewportSummary := site;
     startTs := from; endTs := to |}.

Definition summaries : list TabSessionSummary :=
  [session "s1" "jira.com" "created ticket" 0 40;
   session "s2" "slack.com" "pasted link in thread" 45 60;
   session "s3" "news.example" "scrolled" 900 950].

Definition config : Config :=
  {| gapThreshold := 30; maxSpan := 5; topicalContinuity := fun _ _ => true |}.

Definition jira : ToolRef := {| platform := "Jira"; operation := "create_issue" |}.
Definition slack : ToolRef := {| platform := "Slack"; operation := "post_message" |}.

Definition ticket_from_thread : Workflow :=
  {| summary := "file a Jira ticket from a Slack thread";
     steps := [ {| order := 1; description := "created ticket";
                   role := tool_role; tool := Some jira |};
                {| order := 2; description := "pasted link in thread";
                   role := tool_role; tool := Some slack |} ] |}.

(** A capability that answers outside the vocabulary. *)
Definition chatty (c : WorkflowCandidate) (members : list TabSessionSummary)
    : CapabilityResponse :=
  Answer "Probably a workflow".

End Scenario.

(** ** Looking into a body, a batch and an argument *)

Module Inspect.

(** [value[k]] on an object, [undefined] on anything else. *)
Definition field (k : string) (value : json) : option json :=
  match value with JObj props => get k props | _ => None end.

(** One step down a path: a property of an object, an item of an array. *)
Definition step (value : option json) (seg : z.PathSeg) : option json :=
  match value, seg with
  | Some (JObj props), inl k => get k props
  | Some (JArr items), inr i => items !! i
  | _, _ => None
  end.

(** The value an issue's path points at, from the root of the body. *)
Definition at_path (root : json) (path : list z.PathSeg) : option json :=
  foldl step (Some root) path.

(** An issue says what is at its path, and that is not what was expected. *)
Definition truthful (root : json) (issue : z.ZodIssue) : Prop :=
  z.received issue = z.getParsedType (at_path root (z.path issue)) /\
  z.expected issue <> z.received issue.

(** A schema whose issues are never empty and always truthful, wherever
    in the body it is applied. *)
Definition honest (s : z.ZodType) : Prop :=
  forall root here issues,
    s here (at_path root here) = z.INVALID issues ->
    issues <> [] /\ Forall (truthful root) issues.

(** The seven fields of an event that are not its payload. *)
Definition plain_fields : list string :=
  ["id"; "type"; "timestamp"; "tabId"; "windowId"; "url"; "title"].

(** Two payloads have the same keys other than [__proto__], with the same
    values in the same order. *)
Definition same_payload (p1 p2 : option json) : Prop :=
  Spec.forwarded_payload <$> p1 = Spec.forwarded_payload <$> p2.

(** Two events agree on the fields of the schema: on the seven plain ones,
    and on the payload but for a key [__proto__]. *)
Definition same_fields (e1 e2 : json) : Prop :=
  (forall k, k ∈ plain_fields -> field k e1 = field k e2) /\
  same_payload (field "payload" e1) (field "payload" e2).

(** What the schema wants of each field of an event: the type, and
    whether the field may be absent (lines 8-15). *)
Definition event_expectations : list (string * z.ZodParsedType * bool) :=
  [("id", z.string_t, false); ("type", z.string_t, false);
   ("timestamp", z.number_t, false); ("tabId", z.number_t, false);
   ("windowId", z.number_t, false); ("url", z.string_t, true);
   ("title", z.string_t, true); ("payload", z.object_t, false)].

Definition same_type (t1 t2 : z.ZodParsedType) : bool :=
  String.eqb (z.type_name t1) (z.type_name t2).

(** The value found does not meet the expectation. *)
Definition violates (want : z.ZodParsedType) (may_be_absent : bool) (found : option json)
    : bool :=
  negb (same_type (z.getParsedType found) want) &&
  negb (may_be_absent && same_type (z.getParsedType found) z.undefined).

(** No byte below the space: none of the control characters U+0000 to
    U+001F, so no NUL byte, no tab, no carriage return and no line feed. *)
Fixpoint no_c0_control (s : string) : bool :=
  match s with
  | EmptyString => true
  | String c rest => (32 <=? N_of_ascii c)%N && no_c0_control rest
  end.

(** A segment that [normalizeString] keeps as it is. *)
Definition plain (segment : string) : bool :=
  negb (String.eqb segment "" || String.eqb segment "." || String.eqb segment "..").

(** What normalisation leaves of the working directory, the last segment
    first. *)
Definition base (d : string) : list string :=
  if String.eqb d "" then []
  else fold_left (Path.resolve (negb (Path.starts_with_separator d))) (Path.split d) [].

End Inspect.

(** * Proofs *)

(** ** The schema combinators *)

Section Combinators.
Import z Spec.
Implicit Types (here : list PathSeg) (v : option json) (props : list (String.string * json)).

Lemma string_ok here v : is_ok (z.string here v) = true <-> is_string v.
Proof.
  unfold is_string; split.
  - destruct v as [[]|]; simpl; try discriminate. eauto.
  - intros [s ->]. reflexivity.
Qed.

Lemma number_ok here v : is_ok (z.number here v) = true <-> is_number v.
Proof.
  unfold is_number; split.
  - destruct v as [[]|]; simpl; try discriminate. eauto.
  - intros [n ->]. reflexivity.
Qed.

Lemma optional_string_ok here v :
  is_ok (z.optional z.string here v) = true <-> is_optional_string v.
Proof.
  unfold is_optional_string, is_string; split.
  - destruct v as [[]|]; simpl; try discriminate; eauto.
  - intros [-> | [s ->]]; reflexivity.
Qed.

(** The schemas at the leaves hand back what they were given. *)
Lemma string_yields : yields z.string id.
Proof. intros here [[]|] w; cbv; congruence. Qed.

Lemma number_yields : yields z.number id.
Proof. intros here [[]|] w; cbv; congruence. Qed.

Lemma optional_string_yields : yields (z.optional z.string) id.
Proof. intros here [[]|] w; cbv; congruence. Qed.

(** A record is rebuilt key by key, and the key [__proto__] is lost. *)
Lemma build_object_record props :
  build_object (keys props) (map (fun kv => Some (snd kv)) props) = JObj (without_proto props).
Proof.
  unfold build_object, keys, without_proto. f_equal.
  induction props as [|[k x] props IH]; simpl; [reflexivity|].
  destruct (String.eqb k "__proto__"); simpl; [|f_equal]; exact IH.
Qed.

(** [z.record(z.any())] accepts exactly the objects and returns an object
    with the properties other than [__proto__]. *)
Lemma record_any here props :
  z.record z.any here (Some (JObj props)) = OK (Some (JObj (without_proto props))).
Proof.
  unfold z.record, merge, z.any.
  rewrite !map_map. simpl.
  replace (forallb is_ok (map (fun x => OK (Some (snd x))) props)) with true.
  - now rewrite build_object_record.
  - induction props; simpl; auto.
Qed.

Lemma record_any_ok here v : is_ok (z.record z.any here v) = true <-> is_object v.
Proof.
  unfold is_object; split.
  - destruct v as [[]|]; simpl; try discriminate. eauto.
  - intros [props ->]. now rewrite record_any.
Qed.

Lemma record_any_yields : yields (z.record z.any) forwarded_payload.
Proof.
  intros here [[]|] w; try (cbv; congruence).
  rewrite record_any. simpl. congruence.
Qed.

Lemma merge_ok results build value :
  merge results build = OK value <->
  forallb is_ok results = true /\
  value = Some (build (map (fun r => match r with OK v => v | INVALID _ => None end) results)).
Proof.
  unfold merge. destruct (forallb is_ok results); split.
  - intros [= <-]. auto.
  - intros [_ ->]. reflexivity.
  - discriminate.
  - intros [[=] _].
Qed.

Lemma merge_is_ok results build :
  is_ok (merge results build) = forallb is_ok results.
Proof. unfold merge. now destruct (forallb is_ok results). Qed.

Lemma without_proto_idem props : without_proto (without_proto props) = without_proto props.
Proof.
  unfold without_proto. induction props as [|[k x] props IH]; simpl; [reflexivity|].
  destruct (String.eqb k "__proto__") eqn:E; simpl; [exact IH|].
  rewrite E. simpl. now rewrite IH.
Qed.



End Combinators.

(** ** The two schemas of the route *)

Section Schemas.
Import z Spec Route.
Implicit Types (here : list PathSeg) (v : option json) (props : list (String.string * json)).

Lemma object_is_ok shape here props :
  is_ok (z.object shape here (Some (JObj props))) =
  forallb (fun ks => is_ok (snd ks (here ++ [inl (fst ks)]) (get (fst ks) props))) shape.
Proof.
  unfold z.object. rewrite merge_is_ok.
  induction shape as [|ks shape IH]; simpl; [reflexivity|].
  now rewrite IH.
Qed.

Lemma build_object_pick (fields : list (String.string * (json -> json))) props :
  Forall (fun kf => fst kf <> "__proto__") fields ->
  build_object (map fst fields) (map (fun kf => snd kf <$> get (fst kf) props) fields)
  = JObj (pick fields props).
Proof.
  intros Hfields. unfold build_object, pick. f_equal.
  induction Hfields as [|[k f] fields Hk _ IH]; simpl in *; [reflexivity|].
  apply String.eqb_neq in Hk. rewrite Hk.
  destruct (get k props); simpl; [f_equal|]; exact IH.
Qed.

(** An object schema whose fields yield [fields] returns the pick of them. *)
Lemma object_value shape (fields : list (String.string * (json -> json))) here props w :
  Forall2 (fun ks kf => fst ks = fst kf /\ yields (snd ks) (snd kf)) shape fields ->
  Forall (fun kf => fst kf <> "__proto__") fields ->
  z.object shape here (Some (JObj props)) = OK w ->
  w = Some (JObj (pick fields props)).
Proof.
  intros Hshape Hfields. unfold z.object. rewrite merge_ok. intros [Hok ->].
  rewrite <- (build_object_pick _ _ Hfields). clear Hfields. f_equal.
  assert (map fst shape = map fst fields /\
          map (fun r => match r with OK v => v | INVALID _ => None end)
              (map (fun ks => snd ks (here ++ [inl (fst ks)]) (get (fst ks) props)) shape)
          = map (fun kf => snd kf <$> get (fst kf) props) fields) as [-> ->];
    [|reflexivity].
  induction Hshape as [|[k s] [k' f] shape fields [Hk Hs] _ IH]; simpl in *; [auto|].
  subst k'. apply andb_true_iff in Hok as [Hk Hok].
  destruct (IH Hok) as [-> ->]. split; [reflexivity|]. f_equal.
  destruct (s (here ++ [inl k]) (get k props)) eqn:E; [|discriminate].
  now apply Hs in E.
Qed.

Lemma EventSchema_ok here e :
  is_ok (EventSchema here (Some e)) = true <-> well_formed_event e.
Proof.
  unfold well_formed_event. destruct e as [| | | | |props];
    try (split; [discriminate | intros (? & [=] & _)]).
  unfold EventSchema. rewrite object_is_ok. simpl.
  rewrite !andb_true_iff, !string_ok, !number_ok, !optional_string_ok, record_any_ok.
  split.
  - intros (? & ? & ? & ? & ? & ? & ? & ? & _). exists props. tauto.
  - intros (? & [= <-] & ?). tauto.
Qed.

Lemma EventSchema_value here e w :
  EventSchema here (Some e) = OK w -> w = Some (strip_event e).
Proof.
  destruct e as [| | | | |props]; try discriminate.
  intros H. apply (object_value _ event_out) in H; [exact H| |].
  - repeat first [apply List.Forall2_cons | apply List.Forall2_nil]; (split; [reflexivity|]);
      first [apply string_yields | apply number_yields
            | apply optional_string_yields | apply record_any_yields].
  - repeat first [apply List.Forall_cons | apply List.Forall_nil]; discriminate.
Qed.

(** The items of [events], whatever path each is parsed at. *)
Lemma events_ok (q : nat -> list PathSeg) items :
  forallb is_ok (imap (fun i x => EventSchema (q i) (Some x)) items) = true <->
  Forall well_formed_event items.
Proof.
  revert q. induction items as [|e items IH]; intros q.
  - split; auto.
  - rewrite imap_cons. cbn [forallb].
    rewrite andb_true_iff, EventSchema_ok, Forall_cons.
    now rewrite <- (IH (q ∘ S)).
Qed.

Lemma events_value (q : nat -> list PathSeg) items :
  forallb is_ok (imap (fun i x => EventSchema (q i) (Some x)) items) = true ->
  map (fun r => match r with OK v => v | INVALID _ => None end)
      (imap (fun i x => EventSchema (q i) (Some x)) items)
  = map (fun e => Some (strip_event e)) items.
Proof.
  revert q. induction items as [|e items IH]; intros q; [reflexivity|].
  rewrite imap_cons. cbn [forallb map].
  rewrite andb_true_iff. intros [He Hitems].
  rewrite <- (IH (q ∘ S) Hitems). f_equal.
  destruct (EventSchema (q 0%nat) (Some e)) eqn:E; [|discriminate].
  now apply EventSchema_value in E.
Qed.

Lemma build_array_some (items : list json) :
  build_array (map Some items) = JArr items.
Proof.
  unfold build_array. rewrite map_map. f_equal. apply map_id.
Qed.

Lemma array_events here items :
  Forall well_formed_event items ->
  z.array EventSchema here (Some (JArr items)) = OK (Some (JArr (map strip_event items))).
Proof.
  intros Hitems. unfold z.array. apply merge_ok.
  apply (events_ok (fun i => here ++ [inr i])) in Hitems. split; [exact Hitems|].
  rewrite (events_value _ _ Hitems).
  rewrite <- map_map with (f := strip_event) (g := Some).
  now rewrite build_array_some.
Qed.

Lemma BatchSchema_accepts props items n :
  get "events" props = Some (JArr items) ->
  Forall well_formed_event items ->
  get "timestamp" props = Some (JNum n) ->
  BatchSchema [] (Some (JObj props)) = OK (Some (validated items n)).
Proof.
  intros Hev Hitems Hts.
  unfold BatchSchema, z.object. cbn [map fst snd]. rewrite Hev, Hts.
  rewrite (array_events _ _ Hitems). reflexivity.
Qed.

Lemma BatchSchema_ok body :
  is_ok (BatchSchema [] (Some body)) = true <-> well_formed_batch body.
Proof.
  unfold well_formed_batch. destruct body as [| | | | |props];
    try (split; [discriminate | intros (? & ? & [=] & _)]).
  unfold BatchSchema. rewrite object_is_ok. cbn [forallb fst snd].
  rewrite !andb_true_iff, number_ok. split.
  - intros (Hev & Hts & _).
    unfold z.array in Hev. destruct (get "events" props) as [[| | | |items|]|] eqn:E;
      try discriminate.
    rewrite merge_is_ok in Hev. apply events_ok in Hev.
    exists props, items. auto.
  - intros (? & items & [= <-] & Hev & Hitems & Hts). split; [|split]; auto.
    rewrite Hev. unfold z.array. rewrite merge_is_ok. now apply events_ok.
Qed.

End Schemas.

(** ** The handler *)

Section Handler.
Import z Spec Route.

Lemma parse_accepts body :
  well_formed_batch body ->
  exists props items n,
    body = JObj props /\ get "events" props = Some (JArr items) /\
    get "timestamp" props = Some (JNum n) /\
    parse BatchSchema body = ([], Return (validated items n)).
Proof.
  intros (props & items & -> & Hev & Hitems & [n Hts]).
  exists props, items, n. repeat split; auto.
  unfold parse. now rewrite (BatchSchema_accepts _ _ _ Hev Hitems Hts).
Qed.

Lemma parse_rejects body :
  ~ well_formed_batch body ->
  exists issues, parse BatchSchema body = ([], Throw (ZodError issues)).
Proof.
  intros Hbad. unfold parse.
  destruct (BatchSchema [] (Some body)) as [value|issues] eqn:E.
  - destruct Hbad. apply BatchSchema_ok. now rewrite E.
  - now exists issues.
Qed.

Lemma parse_logs_nothing body : effects (parse BatchSchema body) = [].
Proof. unfold parse. now destruct (BatchSchema [] (Some body)) as [[]|]. Qed.

(** The run of the handler on a batch that validation returns: the
    working directory is asked for, then the process. *)
Lemma POST_validated host body batch :
  completion (parse BatchSchema body) = Return batch ->
  POST {| body_json := Some body |} host
  = match cwd host with
    | None => internal_error (OtherError "ENOENT: no such file or directory, uv_cwd")
    | Some directory =>
        match refusal host directory batch with
        | Some message => internal_error (OtherError message)
        | None => ([pipeline_process host directory batch], Return success_response)
        end
    end.
Proof.
  intros Hp. pose proof (parse_logs_nothing body) as Hl.
  destruct (parse BatchSchema body) as [log done] eqn:E. simpl in Hp, Hl. subst log done.
  unfold POST, POST_try, request_json, process_cwd, spawn, refusal,
    mbind, Run_bind, bind, mret, Run_ret.
  cbn [body_json ret]. rewrite E. simpl.
  destruct (cwd host) as [directory|]; [|reflexivity]. simpl.
  destruct (spawn_error host _ _ _); reflexivity.
Qed.

(** The run of the handler on a rejected body: two console lines, 400. *)
Lemma POST_rejects host body :
  ~ well_formed_batch body ->
  exists issues,
    POST {| body_json := Some body |} host
    = ([ConsoleError [Text "Error processing request:"; Thrown (ZodError issues)];
        ConsoleLog [Text "Validation errors:"; Issues issues]],
       Return {| status := 400; body := invalid_payload_body issues |}).
Proof.
  intros Hbad. destruct (parse_rejects body Hbad) as [issues Hp].
  exists issues.
  unfold POST, POST_try, request_json, mbind, Run_bind, bind. cbn [body_json ret].
  rewrite Hp. reflexivity.
Qed.

Lemma POST_not_json host :
  POST {| body_json := None |} host
  = ([ConsoleError [Text "Error processing request:";
                    Thrown (SyntaxError "Unexpected token in JSON")]],
     Return {| status := 500; body := internal_error_body |}).
Proof. reflexivity. Qed.

Lemma well_formed_batch_dec body : {well_formed_batch body} + {~ well_formed_batch body}.
Proof.
  destruct (is_ok (BatchSchema [] (Some body))) eqn:E.
  - left. now apply BatchSchema_ok.
  - right. intros H. apply BatchSchema_ok in H. congruence.
Qed.

End Handler.

Section Serving.
Import z Spec Route.

(** A whole request for a batch that validation returns. *)
Lemma serve_validated host child body batch :
  completion (parse BatchSchema body) = Return batch ->
  serve {| body_json := Some body |} host child
  = match cwd host with
    | None => internal_error (OtherError "ENOENT: no such file or directory, uv_cwd")
    | Some directory =>
        match refusal host directory batch with
        | Some message => internal_error (OtherError message)
        | None => (pipeline_process host directory batch :: map pythonProcess_on child,
                   Return success_response)
        end
    end.
Proof.
  intros Hp. unfold serve. rewrite (POST_validated host body batch Hp).
  destruct (cwd host) as [directory|]; [|reflexivity].
  destruct (refusal host directory batch); reflexivity.
Qed.

Lemma serve_rejects host child body :
  ~ well_formed_batch body ->
  serve {| body_json := Some body |} host child = POST {| body_json := Some body |} host.
Proof.
  intros Hbad. destruct (POST_rejects host body Hbad) as [issues Hp].
  unfold serve. rewrite Hp. reflexivity.
Qed.

Lemma events_of_validated items n :
  events_of (validated items n) = map strip_event items.
Proof. reflexivity. Qed.


Lemma passes_validation_is_ok body :
  passes_validation body <-> is_ok (BatchSchema [] (Some body)) = true.
Proof.
  unfold passes_validation. split.
  - intros [batch Hp]. unfold parse in Hp.
    destruct (BatchSchema [] (Some body)) as [[]|]; [reflexivity..|]. discriminate Hp.
  - intros Hok. apply BatchSchema_ok in Hok.
    destruct (parse_accepts body Hok) as (_ & items & n & _ & _ & _ & ->).
    now exists (validated items n).
Qed.

Lemma spawned_listeners child : filter is_spawn (map pythonProcess_on child) = [].
Proof. induction child as [|[] child IH]; cbn; auto. Qed.

(** What a returning [parse] returns. *)
Lemma parse_returns body batch :
  completion (parse BatchSchema body) = Return batch ->
  exists props items n,
    body = JObj props /\ get "events" props = Some (JArr items) /\
    get "timestamp" props = Some (JNum n) /\ Forall well_formed_event items /\
    batch = validated items n.
Proof.
  intros Hp.
  assert (Hwf : well_formed_batch body).
  { apply BatchSchema_ok, passes_validation_is_ok. now exists batch. }
  destruct Hwf as (props & items & -> & Hev & Hitems & [n Hts]).
  exists props, items, n. repeat split; auto.
  unfold parse in Hp. rewrite (BatchSchema_accepts _ _ _ Hev Hitems Hts) in Hp.
  simpl in Hp. congruence.
Qed.

(** A well-formed body is one validation returns a batch for. *)
Lemma parse_well_formed body :
  well_formed_batch body ->
  exists items n,
    events_of body = items /\ Forall well_formed_event items /\
    completion (parse BatchSchema body) = Return (validated items n).
Proof.
  intros Hwf. pose proof Hwf as (props' & items' & -> & Hev' & Hitems & _).
  destruct (parse_accepts _ Hwf) as (props & items & n & [= <-] & Hev & Hts & ->).
  rewrite Hev in Hev'. injection Hev' as <-.
  exists items, n. cbn [events_of]. now rewrite Hev.
Qed.

Lemma spawned_serve request host child :
  spawned (serve request host child) = spawned (POST request host).
Proof.
  unfold serve, spawned, effects. destruct (POST request host) as [done answer].
  cbn [fst]. rewrite filter_app. destruct (existsb is_spawn done).
  - now rewrite spawned_listeners, app_nil_r.
  - apply app_nil_r.
Qed.



End Serving.

Section RouteClaims.
Import z Spec Route Inspect.



(** C1. A body that fails the structural validation of the batch schema
    (a missing or mistyped field on the batch or on an event) is rejected
    before any stage runs: the whole run of the request spawns no
    process, and the response has status 400. *)
Theorem POST_rejects_malformed_before_spawn host child body :
  ~ well_formed_batch body ->
  spawned (serve {| body_json := Some body |} host child) = [] /\
  status <$> response (serve {| body_json := Some body |} host child) = Some 400.
Proof.
  intros Hbad. rewrite (serve_rejects host child body Hbad).
  destruct (POST_rejects host body Hbad) as [issues ->]. split; reflexivity.
Qed.

Lemma POST_rejects_malformed_before_spawn_witness :
  spawned (serve {| body_json := Some Sample.malformed |} Sample.host Sample.finished) = [] /\
  status <$> response (serve {| body_json := Some Sample.malformed |} Sample.host Sample.finished)
  = Some 400.
Proof.
  apply (POST_rejects_malformed_before_spawn Sample.host Sample.finished Sample.malformed).
  intros H. apply BatchSchema_ok in H. vm_compute in H. discriminate H.
Defined.







(** C4. A body passes validation exactly when it is an object with a
    numeric [timestamp] and an [events] array whose elements all have
    string [id] and [type], numeric [timestamp], [tabId] and [windowId],
    a string or no [url] and [title], and an object as [payload]. *)
Theorem BatchSchema_validates_shape body :
  passes_validation body <-> well_formed_batch body.
Proof.
  rewrite passes_validation_is_ok. apply BatchSchema_ok.
Qed.







(** C10. The handler always ends with a response, never with an exception;
    the status is 400 exactly when the body is JSON and fails the
    validation of the batch schema; a body that is not JSON gets status 500
    and "Internal server error". *)
Theorem POST_status_400_iff_invalid request host :
  (exists r, completion (POST request host) = Return r) /\
  (status <$> response (POST request host) = Some 400 <->
   exists body, body_json request = Some body /\ ~ passes_validation body) /\
  response (POST {| body_json := None |} host)
  = Some {| status := 500; body := JObj [("error", JStr "Internal server error")] |}.
Proof.
  destruct request as [[body|]].
  - destruct (well_formed_batch_dec body) as [Hwf|Hbad].
    + destruct (parse_well_formed body Hwf) as (items & n & _ & _ & Hp).
      rewrite (POST_validated host body _ Hp).
      assert (passes_validation body) as Hpass by (exists (validated items n); exact Hp).
      destruct (cwd host) as [directory|]; [destruct (refusal host directory _)|].
      all: split; [eexists; reflexivity|]; split; [|reflexivity];
        (split; [discriminate|]); intros (? & [= <-] & Hno); now destruct Hno.
    + destruct (POST_rejects host body Hbad) as [issues ->].
      split; [eauto|]. split; [|reflexivity]. split; [|reflexivity].
      intros _. exists body. split; [reflexivity|].
      now rewrite passes_validation_is_ok, BatchSchema_ok.
  - rewrite POST_not_json. split; [eauto|]. split; [|reflexivity].
    split; [discriminate|]. intros (? & [=] & _).
Qed.

End RouteClaims.

(** ** The pipeline stages *)

Section BoundaryDetectorFacts.
Import Pipeline.
Variable config : Config.

(** The candidates of a scan list the open window and then the rest, each
    summary once and in order. *)
Lemma scan_members first more rest :
  concat (map memberSessionIds (scan config first more rest))
  = map sessionId (first :: more ++ rest).
Proof.
  revert first more. induction rest as [|next rest IH]; intros first more.
  - cbn. now rewrite !app_nil_r.
  - cbn [scan]. destruct (_ && _).
    + rewrite IH. now rewrite <- app_assoc.
    + cbn [map concat]. rewrite IH. cbn.
      now rewrite map_app.
Qed.

Lemma BoundaryDetector_members summaries :
  concat (map memberSessionIds (BoundaryDetector config summaries))
  = map sessionId summaries.
Proof.
  destruct summaries as [|first rest]; [reflexivity|].
  unfold BoundaryDetector. now rewrite scan_members.
Qed.

(** Every candidate has a member: single-summary windows are the least. *)
Lemma scan_nonempty first more rest :
  Forall (fun c => memberSessionIds c <> []) (scan config first more rest).
Proof.
  revert first more. induction rest as [|next rest IH]; intros first more; cbn [scan].
  - repeat constructor. discriminate.
  - destruct (_ && _); [apply IH|]. constructor; [discriminate|apply IH].
Qed.

End BoundaryDetectorFacts.

Section Lists.
Context {A : Type}.

Lemma concat_lookup_elem (ls : list (list A)) i l x :
  ls !! i = Some l -> x ∈ l -> x ∈ concat ls.
Proof.
  revert i. induction ls as [|l' ls IH]; intros [|i]; cbn; try discriminate.
  - intros [= ->] Hx. apply elem_of_app. now left.
  - intros Hl Hx. apply elem_of_app. right. eauto.
Qed.

Lemma concat_NoDup_disjoint (ls : list (list A)) :
  NoDup (concat ls) ->
  forall i j a b, i <> j -> ls !! i = Some a -> ls !! j = Some b -> a ## b.
Proof.
  induction ls as [|l ls IH]; cbn [concat]; intros Hnd i j a b Hij Ha Hb.
  - destruct i; discriminate.
  - apply NoDup_app in Hnd as (_ & Hsep & Hrest).
    destruct i as [|i], j as [|j]; cbn in Ha, Hb; try congruence.
    + injection Ha as <-. intros x Hx Hx'.
      apply (Hsep x Hx). eapply concat_lookup_elem; eauto.
    + injection Hb as <-. intros x Hx Hx'.
      apply (Hsep x Hx'). eapply concat_lookup_elem; eauto.
    + eapply (IH Hrest i j); eauto.
Qed.

Lemma elem_of_concat (ls : list (list A)) x :
  x ∈ concat ls <-> exists l, l ∈ ls /\ x ∈ l.
Proof.
  rewrite list_elem_of_In, in_concat. split; intros (l & Hl & Hx); exists l;
    rewrite ?list_elem_of_In in *; auto.
Qed.

End Lists.

Section PipelineClaims.
Import Pipeline.

(** C5. For the ordered summaries of a batch (one per session, so with
    distinct session ids) the candidates of BoundaryDetector have pairwise
    disjoint members, every summary is a member of some candidate and
    every member is a summary of the batch; read one candidate after the
    other, the members are the summary sequence itself. *)
Theorem BoundaryDetector_partitions config summaries :
  NoDup (map sessionId summaries) ->
  (forall i j c c',
     i <> j ->
     BoundaryDetector config summaries !! i = Some c ->
     BoundaryDetector config summaries !! j = Some c' ->
     memberSessionIds c ## memberSessionIds c') /\
  (forall id,
     id ∈ map sessionId summaries <->
     exists c, c ∈ BoundaryDetector config summaries /\ id ∈ memberSessionIds c) /\
  concat (map memberSessionIds (BoundaryDetector config summaries))
  = map sessionId summaries.
Proof.
  intros Hnd. pose proof (BoundaryDetector_members config summaries) as Hcat.
  split; [|split; [|exact Hcat]].
  - intros i j c c' Hij Hc Hc'. rewrite <- Hcat in Hnd.
    apply (concat_NoDup_disjoint _ Hnd i j); [exact Hij| |];
      rewrite list_lookup_fmap; [rewrite Hc|rewrite Hc']; reflexivity.
  - intros id. rewrite <- Hcat, elem_of_concat. split.
    + intros (l & Hl & Hid). apply list_elem_of_fmap in Hl as (c & -> & Hc). eauto.
    + intros (c & Hc & Hid). exists (memberSessionIds c). split; [|exact Hid].
      now apply list_elem_of_fmap_2.
Qed.

Lemma BoundaryDetector_partitions_witness :
  (forall i j c c',
     i <> j ->
     BoundaryDetector Scenario.config Scenario.summaries !! i = Some c ->
     BoundaryDetector Scenario.config Scenario.summaries !! j = Some c' ->
     memberSessionIds c ## memberSessionIds c') /\
  (forall id,
     id ∈ map sessionId Scenario.summaries <->
     exists c, c ∈ BoundaryDetector Scenario.config Scenario.summaries /\
               id ∈ memberSessionIds c) /\
  concat (map memberSessionIds (BoundaryDetector Scenario.config Scenario.summaries))
  = map sessionId Scenario.summaries.
Proof.
  apply (BoundaryDetector_partitions Scenario.config Scenario.summaries).
  apply (bool_decide_unpack _). vm_compute. exact I.
Defined.

Lemma interpret_in_vocabulary response : label_name (interpret response) ∈ vocabulary.
Proof.
  unfold vocabulary. destruct (interpret response); cbn; set_solver.
Qed.

Lemma interpret_out_of_vocabulary response :
  out_of_vocabulary response -> interpret response = NOISE.
Proof.
  destruct response as [text|]; [|reflexivity]. cbn. intros Hout.
  destruct (String.eqb_spec text "WORKFLOW") as [->|_].
  - destruct Hout. unfold vocabulary. cbn. set_solver.
  - destruct (String.eqb_spec text "UNFINISHED") as [->|_]; [|reflexivity].
    destruct Hout. unfold vocabulary. cbn. set_solver.
Qed.

(** C6. The label WorkflowClassifier assigns is one of WORKFLOW, NOISE,
    UNFINISHED, and when the response of the classification capability is
    outside that vocabulary (or there is none) the label is NOISE, so
    never WORKFLOW. *)
Theorem WorkflowClassifier_vocabulary capability candidate members :
  label_name (WorkflowClassifier capability candidate members)
  ∈ ["WORKFLOW"; "NOISE"; "UNFINISHED"] /\
  (out_of_vocabulary (capability candidate members) ->
   WorkflowClassifier capability candidate members = NOISE /\
   WorkflowClassifier capability candidate members <> WORKFLOW).
Proof.
  unfold WorkflowClassifier. split; [apply interpret_in_vocabulary|].
  intros Hout. rewrite (interpret_out_of_vocabulary _ Hout). split; [reflexivity|discriminate].
Qed.

Lemma WorkflowClassifier_vocabulary_witness :
  label_name (WorkflowClassifier Scenario.chatty (emit (Scenario.session "s1" "jira.com" "created ticket" 0 40) []) Scenario.summaries)
  ∈ ["WORKFLOW"; "NOISE"; "UNFINISHED"] /\
  WorkflowClassifier Scenario.chatty (emit (Scenario.session "s1" "jira.com" "created ticket" 0 40) []) Scenario.summaries = NOISE.
Proof.
  destruct (WorkflowClassifier_vocabulary Scenario.chatty
              (emit (Scenario.session "s1" "jira.com" "created ticket" 0 40) [])
              Scenario.summaries) as [Hlabel Hnoise].
  split; [exact Hlabel|]. apply Hnoise.
  apply (bool_decide_unpack _). vm_compute. exact I.
Defined.

Lemma Deduplicator_discards incoming stored :
  Deduplicator incoming stored = discard_as_duplicate <->
  exists w, w ∈ stored /\ toolSetSignature w = toolSetSignature incoming.
Proof.
  unfold Deduplicator. case_bool_decide as Hin.
  - split; [intros _|reflexivity].
    apply list_elem_of_fmap in Hin as (w & Hw & Hin). eauto.
  - split; [discriminate|]. intros (w & Hw & Hsig). destruct Hin.
    rewrite <- Hsig. now apply list_elem_of_fmap_2.
Qed.

Lemma submit_all_snoc submissions w :
  submit_all (submissions ++ [w]) = submit (submit_all submissions) w.
Proof. unfold submit_all. now rewrite foldl_app. Qed.

(** The store never holds two records with one signature. *)
Lemma submit_NoDup stored w :
  NoDup (map toolSetSignature stored) -> NoDup (map toolSetSignature (submit stored w)).
Proof.
  intros Hnd. unfold submit, Deduplicator. case_bool_decide as Hin; [exact Hnd|].
  rewrite map_app. apply NoDup_app. split; [exact Hnd|]. split.
  - intros sig Hsig [->|[]%elem_of_nil]%elem_of_cons. contradiction.
  - apply NoDup_singleton.
Qed.

Lemma submit_all_NoDup submissions :
  NoDup (map toolSetSignature (submit_all submissions)).
Proof.
  induction submissions as [|w submissions IH] using rev_ind.
  - constructor.
  - rewrite submit_all_snoc. now apply submit_NoDup.
Qed.

(** A signature, once stored, stays stored. *)
Lemma submit_keeps stored w sig :
  sig ∈ map toolSetSignature stored -> sig ∈ map toolSetSignature (submit stored w).
Proof.
  intros Hin. unfold submit. destruct (Deduplicator w stored); [|exact Hin].
  rewrite map_app. apply elem_of_app. now left.
Qed.

Lemma submit_stores stored w :
  toolSetSignature w ∈ map toolSetSignature (submit stored w).
Proof.
  unfold submit, Deduplicator. case_bool_decide as Hin; [exact Hin|].
  rewrite map_app. apply elem_of_app. right. cbn. set_solver.
Qed.

Lemma submit_all_keeps submissions later sig :
  sig ∈ map toolSetSignature (submit_all submissions) ->
  sig ∈ map toolSetSignature (submit_all (submissions ++ later)).
Proof.
  induction later as [|w later IH] using rev_ind; intros Hin.
  - now rewrite app_nil_r.
  - rewrite app_assoc, submit_all_snoc. apply submit_keeps. auto.
Qed.

Lemma records_like_absent w stored :
  toolSetSignature w ∉ map toolSetSignature stored -> records_like w stored = [].
Proof.
  unfold records_like. induction stored as [|w' stored IH]; [reflexivity|].
  rewrite fmap_cons, not_elem_of_cons. intros [Hne Hnotin].
  rewrite filter_cons. case_decide as Hsig; [congruence|auto].
Qed.

Lemma records_like_NoDup w stored :
  NoDup (map toolSetSignature stored) -> (length (records_like w stored) <= 1)%nat.
Proof.
  unfold records_like. induction stored as [|w' stored IH]; [cbn; lia|].
  rewrite fmap_cons. intros [Hnotin Hnd]%NoDup_cons.
  rewrite filter_cons. case_decide as Hsig; [|auto].
  rewrite Hsig in Hnotin. apply records_like_absent in Hnotin.
  unfold records_like in Hnotin. rewrite Hnotin. cbn. lia.
Qed.

(** C7. The Deduplicator discards an incoming workflow exactly when a
    stored workflow has its tool-set signature; so when a workflow is
    submitted a second time, whatever was submitted before, between and
    after, the second submission changes nothing and the store holds at
    most one record with that signature. *)
Theorem Deduplicator_idempotent (earlier between : list Workflow) (w : Workflow)
    (stored : list Workflow) :
  (Deduplicator w stored = discard_as_duplicate <->
   exists w', w' ∈ stored /\ toolSetSignature w' = toolSetSignature w) /\
  submit (submit_all (earlier ++ [w] ++ between)) w
  = submit_all (earlier ++ [w] ++ between) /\
  (length (records_like w (submit_all (earlier ++ [w] ++ between ++ [w]))) <= 1)%nat.
Proof.
  split; [apply Deduplicator_discards|]. split.
  - assert (toolSetSignature w
            ∈ map toolSetSignature (submit_all (earlier ++ [w] ++ between))) as Hin.
    { rewrite app_assoc. apply submit_all_keeps.
      rewrite submit_all_snoc. apply submit_stores. }
    unfold submit, Deduplicator. now rewrite bool_decide_eq_true_2.
  - apply records_like_NoDup, submit_all_NoDup.
Qed.

End PipelineClaims.

(** ** The runs of the samples *)

Section Runs.
Import z Spec Route Pipeline.

(** Validation keeps the schema's fields in the schema's order: [selector]
    and [source] are gone, [scroll] is reordered, the payloads are whole. *)
Example parse_sample :
  parse BatchSchema Sample.batch
  = ([], Return
      (JObj [("events",
              JArr [JObj [("id", JStr "e1"); ("type", JStr "click");
                          ("timestamp", JNum (Number.int 1700000000000));
                          ("tabId", JNum (Number.int 7));
                          ("windowId", JNum (Number.int 1));
                          ("url", JStr "https://jira.com/browse");
                          ("payload", JObj [("x", JNum (Number.int 10));
                                            ("target", JObj [("tag", JStr "BUTTON")])])];
                    JObj [("id", JStr "e2"); ("type", JStr "scroll");
                          ("timestamp", JNum (Number.int 1700000000500));
                          ("tabId", JNum (Number.int 7));
                          ("windowId", JNum (Number.int 1)); ("payload", JObj [])]]);
             ("timestamp", JNum (Number.int 1700000001000))])).
Proof. vm_compute. reflexivity. Qed.

(** Every issue of a malformed body is reported, with its path. *)
Example malformed_issues :
  completion (parse BatchSchema Sample.malformed)
  = Throw (ZodError
      [{| expected := number_t; received := string_t;
          path := [inl "events"; inr 0%nat; inl "tabId"] |};
       {| expected := object_t; received := undefined;
          path := [inl "events"; inr 1%nat; inl "payload"] |}]).
Proof. vm_compute. reflexivity. Qed.

(** Numbers are printed by Number::toString, and an infinity as [null]. *)
Example stringify_array :
  JSON.stringify
    (JArr [JNum (Number.int 1); JNull; JBool true; JNum (Number.int (-20)); JArr [];
           JObj []; JNum (Number.int (10 ^ 21)); JNum (Number.int (10 ^ 20));
           JNum Number.infinity; JNum (Number.ratio 1 2); JNum (Number.ratio 1 10);
           JNum (Number.ratio 17000000000005 10); JNum (Number.ratio 1 3);
           JNum (Number.ratio 1 10000000); JNum (Number.int (2 ^ 53 + 1));
           JNum (Number.ratio (-1) 0)])
  = "[1,null,true,-20,[],{},1e+21,100000000000000000000,null,0.5,0.1,1700000000000.5,0.3333333333333333,1e-7,9007199254740992,null]".
Proof. vm_compute. reflexivity. Qed.

(** [path.join] normalises. *)
Example path_join_samples :
  map path_join [["/"; "src/server/python"]; ["/srv/app"; "src/server/python"];
                 [""; "src/server/python"]; ["/srv//app/"; "src/server/python"];
                 ["/srv/app/../web/."; "src/server/python"]; [".."; "src/server/python"]]
  = ["/src/server/python"; "/srv/app/src/server/python"; "src/server/python";
     "/srv/app/src/server/python"; "/srv/web/src/server/python";
     "../src/server/python"].
Proof. vm_compute. reflexivity. Qed.

Example not_json_run :
  POST {| body_json := None |} Sample.host
  = ([ConsoleError [Text "Error processing request:";
                    Thrown (SyntaxError "Unexpected token in JSON")]],
     Return {| status := 500; body := JObj [("error", JStr "Internal server error")] |}).
Proof. reflexivity. Qed.

Example crash_run :
  effects (serve {| body_json := Some Sample.batch |} Sample.host Sample.crash)
  = [Spawn "python3"
       ["/srv/app/src/server/python/group_flows.py";
        JSON.stringify (validated [Sample.click; Sample.scroll] (Number.int 1700000001000))]
       "/srv/app/src/server/python";
     ConsoleLog [Text "[Python stdout]: grouping events"];
     ConsoleError [Text "[Python stderr]: Traceback (most recent call last)"];
     ConsoleLog [Text "[Python process] Exited with code: 1"]].
Proof. vm_compute. reflexivity. Qed.

(** Without a working directory the handler throws before [spawn]. *)
Example adrift_run :
  serve {| body_json := Some Sample.batch |} Sample.adrift Sample.crash
  = ([ConsoleError [Text "Error processing request:";
                    Thrown (OtherError "ENOENT: no such file or directory, uv_cwd")]],
     Return {| status := 500; body := JObj [("error", JStr "Internal server error")] |}).
Proof. vm_compute. reflexivity. Qed.

(** An argument the system refuses: [spawn] throws, nothing is started. *)
Example oversized_run :
  serve {| body_json := Some Sample.oversized |} Sample.container Sample.crash
  = ([ConsoleError [Text "Error processing request:"; Thrown (OtherError "spawn E2BIG")]],
     Return {| status := 500; body := JObj [("error", JStr "Internal server error")] |}).
Proof. vm_compute. reflexivity. Qed.

(** Scenario A: two close sessions make one candidate, the late one its own. *)
Example scenario_candidates :
  map memberSessionIds (BoundaryDetector Scenario.config Scenario.summaries)
  = [["s1"; "s2"]; ["s3"]].
Proof. reflexivity. Qed.

(** Scenario C: the same workflow in two batches is stored once. *)
Example scenario_retry :
  submit_all [Scenario.ticket_from_thread; Scenario.ticket_from_thread]
  = [Scenario.ticket_from_thread].
Proof. vm_compute. reflexivity. Qed.

End Runs.

(** * Beyond the claims: what validation returns *)

Section Validation.
Import z Spec Route Inspect.
Implicit Types (props : list (String.string * json)).
Implicit Types (fields : list (String.string * (json -> json))).

Lemma get_pick_out fields props k :
  k ∉ map fst fields -> get k (pick fields props) = None.
Proof.
  unfold pick. induction fields as [|[k0 f] fields IH]; [reflexivity|].
  cbn [map fst]. intros [Hne Hk]%not_elem_of_cons. cbn [omap list_omap fst snd].
  destruct (get k0 props); [|now apply IH]. cbn [get].
  destruct (String.eqb_spec k0 k); [congruence|now apply IH].
Qed.

Lemma get_pick_in fields props k f :
  NoDup (map fst fields) -> (k, f) ∈ fields ->
  get k (pick fields props) = f <$> get k props.
Proof.
  unfold pick. induction fields as [|[k0 f0] fields IH]; [now intros _ ?%elem_of_nil|].
  cbn [map fst]. intros [Hk0 Hnd]%NoDup_cons Hk. cbn [omap list_omap fst snd].
  apply elem_of_cons in Hk as [[= -> ->]|Hk].
  - destruct (get k0 props) as [x|] eqn:E.
    + cbn [get]. now rewrite String.eqb_refl.
    + now apply get_pick_out.
  - assert (k0 <> k) as Hne.
    { intros ->. apply Hk0. apply list_elem_of_fmap. now exists (k, f). }
    destruct (get k0 props) as [x|]; [|now apply IH]. cbn [get].
    destruct (String.eqb_spec k0 k); [congruence|now apply IH].
Qed.

Lemma event_out_NoDup : NoDup (map fst event_out).
Proof. apply (bool_decide_unpack _). vm_compute. exact I. Qed.

(** [pick] looks at the named properties only, each through its function. *)
Lemma pick_ext fields props props' :
  (forall k f, (k, f) ∈ fields -> f <$> get k props = f <$> get k props') ->
  pick fields props = pick fields props'.
Proof.
  unfold pick. induction fields as [|[k f] fields IH]; intros H; [reflexivity|].
  cbn [omap list_omap fst snd].
  rewrite IH by (intros k' f' Hk'; apply H; now right).
  specialize (H k f (list_elem_of_here _ _)).
  destruct (get k props), (get k props'); simpl in H; congruence.
Qed.

Lemma pick_pick fields props :
  NoDup (map fst fields) ->
  Forall (fun kf => forall x, snd kf (snd kf x) = snd kf x) fields ->
  pick fields (pick fields props) = pick fields props.
Proof.
  intros Hnd Hidem. apply pick_ext. intros k f Hk.
  rewrite (get_pick_in fields props k f Hnd Hk).
  rewrite Forall_forall in Hidem. specialize (Hidem _ Hk). cbn [snd] in Hidem.
  destruct (get k props); simpl; [now rewrite Hidem|reflexivity].
Qed.

Lemma forwarded_payload_idem x : forwarded_payload (forwarded_payload x) = forwarded_payload x.
Proof. destruct x; try reflexivity. cbn [forwarded_payload]. now rewrite without_proto_idem. Qed.

(** The value of a field of a validated event. *)
Lemma field_strip_event props k :
  field k (strip_event (JObj props))
  = if bool_decide (k ∈ plain_fields) then get k props
    else if bool_decide (k = "payload") then forwarded_payload <$> get k props
    else None.
Proof.
  cbn [strip_event field]. case_bool_decide as Hplain.
  - assert ((k, id) ∈ event_out) as Hk.
    { unfold plain_fields in Hplain. unfold event_out.
      repeat (apply elem_of_cons in Hplain as [->|Hplain];
              [rewrite !elem_of_cons; tauto|]).
      now apply elem_of_nil in Hplain. }
    rewrite (get_pick_in _ _ _ _ event_out_NoDup Hk). apply option_fmap_id.
  - case_bool_decide as Hpayload.
    + subst k. apply (get_pick_in _ _ _ _ event_out_NoDup).
      unfold event_out. rewrite !elem_of_cons. tauto.
    + apply get_pick_out. cbn [event_out map fst]. unfold plain_fields in Hplain.
      rewrite !elem_of_cons, elem_of_nil in *. tauto.
Qed.

Lemma strip_event_idem e : strip_event (strip_event e) = strip_event e.
Proof.
  destruct e; try reflexivity. cbn [strip_event]. f_equal.
  apply pick_pick; [apply event_out_NoDup|].
  repeat first [apply List.Forall_cons | apply List.Forall_nil];
    first [reflexivity | apply forwarded_payload_idem].
Qed.

Lemma strip_event_well_formed e : well_formed_event e -> well_formed_event (strip_event e).
Proof.
  intros (props & -> & H). exists (pick event_out props). split; [reflexivity|].
  pose proof (field_strip_event props) as Hf. cbn [strip_event field] in Hf.
  rewrite !Hf. cbn.
  destruct H as (? & ? & ? & ? & ? & ? & ? & [payload ->]).
  repeat split; try assumption. now eexists.
Qed.

Lemma validated_well_formed items n :
  Forall well_formed_event items -> well_formed_batch (validated items n).
Proof.
  intros Hitems. exists [("events", JArr (map strip_event items)); ("timestamp", JNum n)],
    (map strip_event items).
  repeat split; [|now exists n].
  apply Forall_fmap. eapply Forall_impl; [exact Hitems|]. apply strip_event_well_formed.
Qed.

(** X1. Validation is idempotent: a batch that [BatchSchema.parse] has
    returned parses again, without an issue, to itself. *)
Theorem validation_idempotent body batch :
  completion (parse BatchSchema body) = Return batch ->
  parse BatchSchema batch = ([], Return batch).
Proof.
  intros (props & items & n & -> & _ & _ & Hitems & ->)%parse_returns.
  destruct (parse_accepts _ (validated_well_formed items n Hitems))
    as (props' & items' & n' & [= <-] & [= <-] & [= <-] & ->).
  unfold validated. rewrite map_map.
  rewrite (map_ext _ strip_event); [reflexivity|]. intros e. apply strip_event_idem.
Qed.

Lemma validation_idempotent_witness :
  parse BatchSchema (validated [Sample.click; Sample.scroll] (Number.int 1700000001000))
  = ([], Return (validated [Sample.click; Sample.scroll] (Number.int 1700000001000))).
Proof.
  apply (validation_idempotent Sample.batch). vm_compute. reflexivity.
Defined.

(** X2. Validation changes no field of the schema but the payload's key
    [__proto__]: the events of the returned batch are the events of the
    body, as many and in the same order, each with the same value (or the
    same absence) under each of the seven field names other than
    [payload], with a payload that has the keys of the body's other than
    [__proto__] with their values and in their order, and with nothing
    under any other name. *)
Theorem validation_keeps_schema_fields body batch :
  completion (parse BatchSchema body) = Return batch ->
  Forall2 (fun sent posted =>
             (forall k, k ∈ plain_fields -> field k sent = field k posted) /\
             (exists props,
                field "payload" posted = Some (JObj props) /\
                field "payload" sent = Some (JObj (without_proto props))) /\
             (forall k, k ∉ event_fields -> field k sent = None))
          (events_of batch) (events_of body).
Proof.
  intros (props & items & n & -> & Hev & _ & Hitems & ->)%parse_returns.
  rewrite events_of_validated. cbn [events_of]. rewrite Hev. clear Hev.
  induction Hitems as [|e items He _ IH]; cbn [map]; constructor; [|exact IH].
  destruct He as (eprops & -> & _ & _ & _ & _ & _ & _ & _ & [payload Hp]).
  split; [|split].
  - intros k Hk. rewrite field_strip_event. now rewrite bool_decide_eq_true_2.
  - exists payload. rewrite field_strip_event. cbn [field]. rewrite Hp. auto.
  - intros k Hk. rewrite field_strip_event. unfold event_fields, plain_fields in *.
    rewrite !bool_decide_eq_false_2; [reflexivity|..];
      rewrite !elem_of_cons, ?elem_of_nil in *; tauto.
Qed.

Lemma validation_keeps_schema_fields_witness :
  Forall2 (fun sent posted =>
             (forall k, k ∈ plain_fields -> field k sent = field k posted) /\
             (exists props,
                field "payload" posted = Some (JObj props) /\
                field "payload" sent = Some (JObj (without_proto props))) /\
             (forall k, k ∉ event_fields -> field k sent = None))
          (events_of (validated [Sample.keypress] (Number.int 1700000001000)))
          (events_of Sample.polluted).
Proof.
  apply (validation_keeps_schema_fields Sample.polluted). vm_compute. reflexivity.
Defined.

Lemma keys_pick_sublist fields props : sublist (keys (pick fields props)) (map fst fields).
Proof.
  unfold keys, pick.
  induction fields as [|[k f] fields IH]; cbn [omap list_omap map fst snd]; [constructor|].
  destruct (get k props); cbn [map fst].
  - now apply sublist_skip.
  - now apply sublist_cons.
Qed.

(** X3. The returned batch is an object with exactly two properties,
    [events] and then [timestamp]: whatever else the body had at its top
    level is gone, the timestamp is the body's, and every event is an
    object whose fields come in the order of the schema, whatever their
    order in the body. *)
Theorem validated_batch_shape body batch :
  completion (parse BatchSchema body) = Return batch ->
  exists items n,
    batch = JObj [("events", JArr items); ("timestamp", JNum n)] /\
    field "timestamp" body = Some (JNum n) /\
    length items = length (events_of body) /\
    Forall (fun e => exists props, e = JObj props /\ sublist (keys props) event_fields) items.
Proof.
  intros (props & items & n & -> & Hev & Hts & Hitems & ->)%parse_returns.
  exists (map strip_event items), n. split; [reflexivity|]. split; [exact Hts|].
  cbn [events_of]. rewrite Hev. split; [apply length_map|].
  apply Forall_fmap. eapply Forall_impl; [exact Hitems|].
  intros e (eprops & -> & _). exists (pick event_out eprops).
  split; [reflexivity|apply (keys_pick_sublist event_out)].
Qed.

Lemma validated_batch_shape_witness :
  exists items n,
    validated [Sample.click; Sample.scroll] (Number.int 1700000001000)
    = JObj [("events", JArr items); ("timestamp", JNum n)] /\
    field "timestamp" Sample.batch = Some (JNum n) /\
    length items = length (events_of Sample.batch) /\
    Forall (fun e => exists props, e = JObj props /\ sublist (keys props) event_fields) items.
Proof.
  apply (validated_batch_shape Sample.batch). vm_compute. reflexivity.
Defined.

End Validation.

(** * Beyond the claims: what the handler does *)

Section Handling.
Import z Spec Route Inspect.

Lemma spawned_internal_error e : spawned (internal_error e) = [].
Proof. reflexivity. Qed.

Lemma spawned_one {A} (process : Effect) (answer : Completion A) :
  is_spawn process = true -> spawned ([process], answer) = [process].
Proof. intros H. unfold spawned, effects. cbn. now rewrite H. Qed.

(** X4. A request is given the handle of at most one process, and of one
    exactly when it is answered with status 200 (whether that process
    then starts shows later, in its events); the answer is one of three:
    200 with the success body, 400 with "Invalid payload" and the issues,
    500 with "Internal server error".  The listeners never start a
    process. *)
Theorem POST_spawns_iff_accepted request host child :
  (length (spawned (POST request host)) <= 1)%nat /\
  (length (spawned (POST request host)) = 1%nat <->
   status <$> response (POST request host) = Some 200) /\
  spawned (serve request host child) = spawned (POST request host) /\
  exists r, response (POST request host) = Some r /\
    ((status r = 200 /\ body r = success_body) \/
     (status r = 400 /\ exists issues, body r = invalid_payload_body issues) \/
     (status r = 500 /\ body r = internal_error_body)).
Proof.
  assert (forall e, let run := internal_error e in
            (length (spawned run) <= 1)%nat /\
            (length (spawned run) = 1%nat <-> status <$> response run = Some 200) /\
            exists r, response run = Some r /\
              ((status r = 200 /\ body r = success_body) \/
               (status r = 400 /\ exists issues, body r = invalid_payload_body issues) \/
               (status r = 500 /\ body r = internal_error_body))) as Hinternal.
  { intros e run. subst run. rewrite spawned_internal_error. cbn [length].
    split; [lia|]. split; [split; discriminate|].
    eexists. split; [reflexivity|]. right. right. split; reflexivity. }
  rewrite spawned_serve.
  enough ((length (spawned (POST request host)) <= 1)%nat /\
          (length (spawned (POST request host)) = 1%nat <->
           status <$> response (POST request host) = Some 200) /\
          exists r, response (POST request host) = Some r /\
            ((status r = 200 /\ body r = success_body) \/
             (status r = 400 /\ exists issues, body r = invalid_payload_body issues) \/
             (status r = 500 /\ body r = internal_error_body))) by tauto.
  destruct request as [[body|]]; [|apply (Hinternal (SyntaxError _))].
  destruct (well_formed_batch_dec body) as [Hwf|Hbad].
  - destruct (parse_well_formed body Hwf) as (items & n & _ & _ & Hp).
    rewrite (POST_validated host body _ Hp).
    destruct (cwd host) as [directory|]; [|apply Hinternal].
    destruct (refusal host directory _); [apply Hinternal|].
    rewrite spawned_one by reflexivity. cbn [length].
    split; [lia|]. split; [split; reflexivity|].
    eexists. split; [reflexivity|]. left. split; reflexivity.
  - destruct (POST_rejects host body Hbad) as [issues ->].
    change (spawned (A := NextResponse) _) with (@nil Effect). cbn [length].
    split; [lia|]. split; [split; discriminate|].
    eexists. split; [reflexivity|]. right. left. split; [reflexivity|]. now exists issues.
Qed.

(** X6. A batch without events is a valid batch: when neither
    [process.cwd()] nor [spawn] throws, the handler starts the pipeline on
    it all the same, with an empty [events] array and the body's timestamp
    as the argument, and answers 200. *)
Theorem POST_empty_batch host props n directory :
  get "events" props = Some (JArr []) ->
  get "timestamp" props = Some (JNum n) ->
  cwd host = Some directory ->
  spawn_error host (pythonExecutable host directory)
    [path_join [directory; "src/server/python/group_flows.py"];
     JSON.stringify (JObj [("events", JArr []); ("timestamp", JNum n)])]
    (path_join [directory; "src/server/python"]) = None ->
  POST {| body_json := Some (JObj props) |} host
  = ([Spawn (pythonExecutable host directory)
            [path_join [directory; "src/server/python/group_flows.py"];
             JSON.stringify (JObj [("events", JArr []); ("timestamp", JNum n)])]
            (path_join [directory; "src/server/python"])],
     Return {| status := 200; body := success_body |}).
Proof.
  intros Hev Hts Hcwd Hspawn.
  assert (well_formed_batch (JObj props)) as Hwf.
  { exists props, []. repeat split; [exact Hev|constructor|now exists n]. }
  destruct (parse_accepts _ Hwf) as (props' & items & n' & [= <-] & Hev' & Hts' & Hp).
  rewrite Hev in Hev'. injection Hev' as <-. rewrite Hts in Hts'. injection Hts' as <-.
  rewrite (POST_validated host _ (validated [] n)) by now rewrite Hp.
  rewrite Hcwd. unfold refusal, validated. cbn [map]. now rewrite Hspawn.
Qed.

Lemma POST_empty_batch_witness :
  POST {| body_json := Some (JObj [("timestamp", JNum (Number.int 5)); ("events", JArr [])]) |}
       Sample.host
  = ([Spawn (pythonExecutable Sample.host "/srv/app")
            [path_join ["/srv/app"; "src/server/python/group_flows.py"];
             JSON.stringify (JObj [("events", JArr []); ("timestamp", JNum (Number.int 5))])]
            (path_join ["/srv/app"; "src/server/python"])],
     Return {| status := 200; body := success_body |}).
Proof.
  apply (POST_empty_batch Sample.host
           [("timestamp", JNum (Number.int 5)); ("events", JArr [])] (Number.int 5) "/srv/app");
    reflexivity.
Defined.

Lemma strip_event_same_fields e1 e2 :
  well_formed_event e1 -> well_formed_event e2 ->
  strip_event e1 = strip_event e2 <-> same_fields e1 e2.
Proof.
  intros (p1 & -> & _) (p2 & -> & _). split.
  - intros Heq. split.
    + intros k Hk.
      pose proof (field_strip_event p1 k) as H1.
      pose proof (field_strip_event p2 k) as H2.
      rewrite bool_decide_eq_true_2 in H1, H2 by exact Hk.
      cbn [field]. rewrite <- H1, <- H2. now rewrite Heq.
    + unfold same_payload. cbn [field].
      assert (forall p, field "payload" (strip_event (JObj p))
                        = forwarded_payload <$> get "payload" p) as Hf.
      { intros p. apply (field_strip_event p "payload"). }
      rewrite <- !Hf. now rewrite Heq.
  - intros [Hplain Hpayload]. cbn [strip_event]. f_equal. apply pick_ext.
    intros k f Hk. unfold event_out in Hk. rewrite !elem_of_cons, elem_of_nil in Hk.
    destruct Hk as [Hk|[Hk|[Hk|[Hk|[Hk|[Hk|[Hk|[Hk|[]]]]]]]]];
      injection Hk as -> ->; try exact Hpayload;
      (rewrite !option_fmap_id; apply (Hplain _);
       unfold plain_fields; rewrite !elem_of_cons; tauto).
Qed.

Lemma strip_events_same_fields items1 items2 :
  Forall well_formed_event items1 -> Forall well_formed_event items2 ->
  map strip_event items1 = map strip_event items2 <-> Forall2 same_fields items1 items2.
Proof.
  intros H1. revert items2. induction H1 as [|e1 items1 He1 _ IH]; intros items2 H2.
  - split.
    + destruct items2; [constructor|discriminate].
    + now intros ->%Forall2_nil_inv_l.
  - destruct H2 as [|e2 items2 He2 H2].
    + split; [discriminate|intros H; inversion H].
    + cbn [map]. rewrite Forall2_cons, <- (IH items2 H2),
        <- (strip_event_same_fields e1 e2 He1 He2).
      split; [intros [= -> ->]; auto|intros [-> ->]; reflexivity].
Qed.

(** X7. Validation returns the same batch for two bodies exactly when
    they have the same timestamp and their events agree, one by one, on
    the seven plain fields of the schema and on the payload but for a key
    [__proto__]: the batch is the same whatever the order of the
    properties in the bodies and whatever else they hold, and it is
    different as soon as one of these differs.  On the same server two
    such bodies have the same run: the same process, the same answer. *)
Theorem same_batch_iff_same_fields body1 body2 batch1 batch2 :
  completion (parse BatchSchema body1) = Return batch1 ->
  completion (parse BatchSchema body2) = Return batch2 ->
  (batch1 = batch2 <->
   field "timestamp" body1 = field "timestamp" body2 /\
   Forall2 same_fields (events_of body1) (events_of body2)) /\
  (batch1 = batch2 ->
   forall host, POST {| body_json := Some body1 |} host
                = POST {| body_json := Some body2 |} host).
Proof.
  intros Hp1 Hp2. split.
  - destruct (parse_returns _ _ Hp1) as (p1 & l1 & n1 & -> & Hl1 & Hts1 & Hitems1 & ->).
    destruct (parse_returns _ _ Hp2) as (p2 & l2 & n2 & -> & Hl2 & Hts2 & Hitems2 & ->).
    cbn [field events_of]. rewrite Hl1, Hl2, Hts1, Hts2.
    rewrite <- (strip_events_same_fields l1 l2 Hitems1 Hitems2).
    unfold validated. split.
    + intros [= -> ->]. auto.
    + intros [[= ->] ->]. reflexivity.
  - intros <- host.
    now rewrite (POST_validated host body1 _ Hp1), (POST_validated host body2 _ Hp2).
Qed.

Lemma same_batch_iff_same_fields_witness :
  (validated [Sample.keypress] (Number.int 1700000001000)
   = validated [Sample.keypress] (Number.int 1700000001000) <->
   field "timestamp" Sample.polluted
   = field "timestamp" (validated [Sample.keypress] (Number.int 1700000001000)) /\
   Forall2 same_fields (events_of Sample.polluted)
           (events_of (validated [Sample.keypress] (Number.int 1700000001000)))) /\
  (validated [Sample.keypress] (Number.int 1700000001000)
   = validated [Sample.keypress] (Number.int 1700000001000) ->
   forall host,
     POST {| body_json := Some Sample.polluted |} host
     = POST {| body_json := Some (validated [Sample.keypress] (Number.int 1700000001000)) |}
            host).
Proof.
  apply (same_batch_iff_same_fields Sample.polluted
           (validated [Sample.keypress] (Number.int 1700000001000)));
    vm_compute; reflexivity.
Defined.

End Handling.

(** * Beyond the claims: the issues of a rejected body *)

Section Issues.
Import z Spec Route Inspect.

Lemma at_path_snoc root here seg :
  at_path root (here ++ [seg]) = step (at_path root here) seg.
Proof. unfold at_path. now rewrite foldl_app. Qed.

Lemma merge_issues results build issues :
  merge results build = INVALID issues ->
  issues = concat (map issues_of results) /\
  exists r more, r ∈ results /\ r = INVALID more.
Proof.
  unfold merge. destruct (forallb is_ok results) eqn:E; [discriminate|].
  intros [= <-]. split; [reflexivity|].
  induction results as [|r results IH]; [discriminate|]. cbn [forallb] in E.
  destruct r as [v|more].
  - destruct (IH E) as (r & more & Hr & ->). exists (INVALID more), more.
    split; [now right|reflexivity].
  - exists (INVALID more), more. split; [left|reflexivity].
Qed.

(** The issues of one invalid result are among the merged issues. *)
Lemma merge_invalid results build r more :
  r ∈ results -> r = INVALID more ->
  exists issues, merge results build = INVALID issues /\ more ⊆ issues.
Proof.
  intros Hr ->. exists (concat (map issues_of results)). split.
  - unfold merge. replace (forallb is_ok results) with false; [reflexivity|].
    symmetry. apply not_true_is_false. intros Hall.
    rewrite forallb_forall in Hall. apply list_elem_of_In, Hall in Hr. discriminate Hr.
  - intros x Hx. apply elem_of_concat. exists more. split; [|exact Hx].
    change more with (issues_of (INVALID more)). now apply list_elem_of_fmap_2.
Qed.

Lemma honest_merge root results build issues :
  (forall r more, r ∈ results -> r = INVALID more ->
     more <> [] /\ Forall (truthful root) more) ->
  merge results build = INVALID issues ->
  issues <> [] /\ Forall (truthful root) issues.
Proof.
  intros Hall Hm. destruct (merge_issues _ _ _ Hm) as (-> & r & more & Hr & ->). split.
  - destruct (Hall _ _ Hr eq_refl) as [Hne _].
    destruct (merge_invalid results build _ more Hr eq_refl) as (issues & Hm' & Hsub).
    rewrite Hm in Hm'. injection Hm' as <-.
    intros Hnil. destruct more as [|x more]; [congruence|].
    specialize (Hsub x ltac:(left)). rewrite Hnil in Hsub. now apply elem_of_nil in Hsub.
  - apply Forall_forall. intros x (l & Hl & Hx)%elem_of_concat.
    apply list_elem_of_fmap in Hl as (r' & -> & Hr').
    destruct r' as [v|more']; [now apply elem_of_nil in Hx|].
    destruct (Hall _ _ Hr' eq_refl) as [_ Htrue].
    rewrite Forall_forall in Htrue. now apply Htrue.
Qed.

Lemma honest_invalid_type want root here :
  want <> getParsedType (at_path root here) ->
  forall issues, invalid_type want here (at_path root here) = INVALID issues ->
  issues <> [] /\ Forall (truthful root) issues.
Proof.
  intros Hne issues [= <-]. split; [discriminate|].
  repeat constructor; cbn; congruence.
Qed.

Lemma honest_string : honest z.string.
Proof.
  intros root here issues. unfold z.string.
  destruct (at_path root here) as [[]|] eqn:E; try discriminate;
    rewrite <- E; apply honest_invalid_type; rewrite E; discriminate.
Qed.

Lemma honest_number : honest z.number.
Proof.
  intros root here issues. unfold z.number.
  destruct (at_path root here) as [[]|] eqn:E; try discriminate;
    rewrite <- E; apply honest_invalid_type; rewrite E; discriminate.
Qed.

Lemma honest_optional s : honest s -> honest (z.optional s).
Proof.
  intros Hs root here issues. unfold z.optional.
  destruct (at_path root here) eqn:E; [|discriminate]. rewrite <- E. apply Hs.
Qed.

Lemma honest_record_any : honest (z.record z.any).
Proof.
  intros root here issues.
  destruct (at_path root here) as [[| | | | |props]|] eqn:E;
    try (unfold z.record; rewrite <- E; apply honest_invalid_type; rewrite E; discriminate).
  rewrite record_any. discriminate.
Qed.

Lemma honest_object shape :
  Forall (fun ks => honest (snd ks)) shape -> honest (z.object shape).
Proof.
  intros Hshape root here issues. unfold z.object.
  destruct (at_path root here) as [[| | | | |props]|] eqn:E;
    try (rewrite <- E; apply honest_invalid_type; rewrite E; discriminate).
  apply honest_merge. intros r more (ks & -> & Hks)%list_elem_of_fmap Hr.
  rewrite Forall_forall in Hshape. apply (Hshape ks Hks root (here ++ [inl (fst ks)])).
  now rewrite at_path_snoc, E.
Qed.

Lemma honest_array element : honest element -> honest (z.array element).
Proof.
  intros Helement root here issues. unfold z.array.
  destruct (at_path root here) as [[| | | |items|]|] eqn:E;
    try (rewrite <- E; apply honest_invalid_type; rewrite E; discriminate).
  apply honest_merge. intros r more (i & x & -> & Hx)%elem_of_lookup_imap Hr.
  apply (Helement root (here ++ [inr i])).
  rewrite at_path_snoc, E. cbn [step]. now rewrite Hx.
Qed.

Lemma honest_BatchSchema : honest BatchSchema.
Proof.
  apply honest_object. repeat first [apply List.Forall_cons | apply List.Forall_nil];
    cbn [snd]; [|apply honest_number].
  apply honest_array, honest_object.
  repeat first [apply List.Forall_cons | apply List.Forall_nil]; cbn [snd];
    first [apply honest_string | apply honest_number
          | apply honest_optional, honest_string | apply honest_record_any].
Qed.

(** The run of the handler on issues it is given. *)
Lemma POST_invalid host body issues :
  BatchSchema [] (Some body) = INVALID issues ->
  POST {| body_json := Some body |} host
  = ([ConsoleError [Text "Error processing request:"; Thrown (ZodError issues)];
      ConsoleLog [Text "Validation errors:"; Issues issues]],
     Return {| status := 400; body := invalid_payload_body issues |}).
Proof.
  intros H. unfold POST, POST_try, request_json, parse, mbind, Run_bind, bind.
  cbn [body_json ret]. rewrite H. reflexivity.
Qed.

(** X8. The details of a 400 answer are never empty, and each of them is
    true of the body: its path leads, from the root of the body, to a value
    (or to nothing) of the type it says it received, and that type is not
    the type it says was expected.  The same issues are written to the
    console. *)
Theorem rejection_details_truthful host body :
  ~ passes_validation body ->
  exists issues,
    POST {| body_json := Some body |} host
    = ([ConsoleError [Text "Error processing request:"; Thrown (ZodError issues)];
        ConsoleLog [Text "Validation errors:"; Issues issues]],
       Return {| status := 400;
                 body := JObj [("error", JStr "Invalid payload");
                               ("details", JArr (map issue_to_json issues))] |}) /\
    issues <> [] /\
    Forall (truthful body) issues.
Proof.
  intros Hbad. destruct (BatchSchema [] (Some body)) as [v|issues] eqn:E.
  - destruct Hbad. apply passes_validation_is_ok. now rewrite E.
  - exists issues. split; [now apply POST_invalid|].
    now apply (honest_BatchSchema body []).
Qed.

Lemma rejection_details_truthful_witness :
  exists issues,
    POST {| body_json := Some Sample.malformed |} Sample.host
    = ([ConsoleError [Text "Error processing request:"; Thrown (ZodError issues)];
        ConsoleLog [Text "Validation errors:"; Issues issues]],
       Return {| status := 400;
                 body := JObj [("error", JStr "Invalid payload");
                               ("details", JArr (map issue_to_json issues))] |}) /\
    issues <> [] /\
    Forall (truthful Sample.malformed) issues.
Proof.
  apply (rejection_details_truthful Sample.host Sample.malformed).
  intros H. apply passes_validation_is_ok in H. vm_compute in H. discriminate H.
Defined.

(** What each field schema answers to a value that violates it. *)
Lemma field_violation here props k want may_be_absent :
  (k, want, may_be_absent) ∈ event_expectations ->
  violates want may_be_absent (get k props) = true ->
  exists issues,
    EventSchema here (Some (JObj props)) = INVALID issues /\
    {| expected := want; received := getParsedType (get k props);
       path := here ++ [inl k] |} ∈ issues.
Proof.
  intros Hin Hv. unfold EventSchema, z.object.
  match goal with |- context [merge ?results ?build] =>
    destruct (merge_invalid results build
                (invalid_type want (here ++ [inl k]) (get k props))
                [{| expected := want; received := getParsedType (get k props);
                    path := here ++ [inl k] |}]) as (issues & -> & Hsub)
  end.
  - unfold event_expectations in Hin. rewrite !elem_of_cons in Hin.
    destruct Hin as [Hin|[Hin|[Hin|[Hin|[Hin|[Hin|[Hin|[Hin|Hin%elem_of_nil]]]]]]]];
      [injection Hin as -> -> ->..|destruct Hin];
      cbn [map fst snd]; rewrite !elem_of_cons;
      match type of Hv with violates _ _ ?found = true =>
        destruct found as [[]|]; try discriminate Hv; cbn; auto 10
      end.
  - reflexivity.
  - exists issues. split; [reflexivity|]. apply Hsub. left.
Qed.

(** X9. Validation reports every violation, not the first one only: for
    each event of the body that is an object and each field of the schema
    whose value there is not of the expected type (missing counts, unless
    the field is optional), the details of the 400 answer hold the issue
    with the path [events, i, field], the expected type and the type
    found. *)
Theorem every_violation_reported host props items i eprops k want may_be_absent :
  get "events" props = Some (JArr items) ->
  items !! i = Some (JObj eprops) ->
  (k, want, may_be_absent) ∈ event_expectations ->
  violates want may_be_absent (get k eprops) = true ->
  exists issues,
    response (POST {| body_json := Some (JObj props) |} host)
    = Some {| status := 400;
              body := JObj [("error", JStr "Invalid payload");
                            ("details", JArr (map issue_to_json issues))] |} /\
    {| expected := want; received := getParsedType (get k eprops);
       path := [inl "events"; inr i; inl k] |} ∈ issues.
Proof.
  intros Hev Hi Hin Hv.
  destruct (field_violation [inl "events"; inr i] eprops k want may_be_absent Hin Hv)
    as (more & Hevent & Hissue).
  assert (exists issues, BatchSchema [] (Some (JObj props)) = INVALID issues /\
                         more ⊆ issues) as (issues & Hbatch & Hsub).
  { unfold BatchSchema, z.object. cbn [map fst snd app]. rewrite Hev.
    match goal with |- context [merge (?r :: ?rs) ?build] =>
      destruct (merge_invalid
                  (imap (fun j x => EventSchema ([inl "events"] ++ [inr j]) (Some x)) items)
                  build_array (EventSchema [inl "events"; inr i] (Some (JObj eprops))) more)
        as (inner & Hinner & Hsub1);
        [apply elem_of_lookup_imap; eauto|exact Hevent|];
      destruct (merge_invalid (r :: rs) build r inner) as (issues & Hm & Hsub2);
        [left|exact Hinner|]
    end.
    exists issues. split; [exact Hm|]. intros x Hx. apply Hsub2, Hsub1, Hx. }
  exists issues. rewrite (POST_invalid host _ issues Hbatch). split; [reflexivity|].
  apply Hsub, Hissue.
Qed.

Lemma every_violation_reported_witness :
  exists issues,
    response (POST {| body_json := Some Sample.malformed |} Sample.host)
    = Some {| status := 400;
              body := JObj [("error", JStr "Invalid payload");
                            ("details", JArr (map issue_to_json issues))] |} /\
    {| expected := object_t; received := getParsedType None;
       path := [inl "events"; inr 1%nat; inl "payload"] |} ∈ issues.
Proof.
  apply (every_violation_reported Sample.host
           (match Sample.malformed with JObj props => props | _ => [] end)
           (events_of Sample.malformed) 1%nat
           [("id", JStr "e2"); ("type", JStr "scroll"); ("timestamp", JNum (Number.int 2));
            ("tabId", JNum (Number.int 7)); ("windowId", JNum (Number.int 1))]
           "payload" object_t false).
  - reflexivity.
  - reflexivity.
  - unfold event_expectations. do 7 right. left.
  - reflexivity.
Defined.

End Issues.

(** * Beyond the claims: the argument handed to the process *)

(** A fact about one character, checked on each of the 256. *)
Ltac check_every_character c :=
  let b0 := fresh in let b1 := fresh in let b2 := fresh in let b3 := fresh in
  let b4 := fresh in let b5 := fresh in let b6 := fresh in let b7 := fresh in
  destruct c as [b0 b1 b2 b3 b4 b5 b6 b7];
  destruct b0, b1, b2, b3, b4, b5, b6, b7.

Section Strings.
Implicit Types (s r : string) (c : ascii) (v : json).

Lemma append_cons c s1 s2 : String c s1 +:+ s2 = String c (s1 +:+ s2).
Proof. reflexivity. Qed.

Lemma append_assoc s1 s2 s3 : (s1 +:+ s2) +:+ s3 = s1 +:+ (s2 +:+ s3).
Proof.
  induction s1 as [|c s1 IH]; [reflexivity|].
  rewrite !append_cons. f_equal. exact IH.
Qed.

Lemma append_not_empty s1 c s2 : String.eqb (s1 +:+ String c s2) "" = false.
Proof. now destruct s1. Qed.

Lemma stringify_arr items :
  stringify (JArr items) = "[" +:+ join "," (map stringify items) +:+ "]".
Proof. reflexivity. Qed.

(** How one property of an object is printed. *)
Lemma stringify_obj props :
  stringify (JObj props)
  = "{" +:+ join "," (map (fun kx => quote (fst kx) +:+ ":" +:+ stringify (snd kx)) props)
        +:+ "}".
Proof.
  cbn [stringify]. do 3 f_equal.
  induction props as [|[k x] props IH]; [reflexivity|]. cbn [map fst snd]. now rewrite IH.
Qed.

End Strings.

Section Argument.
Import z Spec Route Inspect.

Lemma no_c0_control_app s1 s2 :
  no_c0_control (s1 +:+ s2) = no_c0_control s1 && no_c0_control s2.
Proof.
  induction s1 as [|c s1 IH]; [reflexivity|].
  rewrite append_cons. cbn [no_c0_control]. now rewrite IH, andb_assoc.
Qed.

Lemma no_c0_control_quote_char c : no_c0_control (quote_char c) = true.
Proof. check_every_character c; reflexivity. Qed.

(** [JSON.stringify] escapes every control character below the space. *)
Lemma no_c0_control_quote s : no_c0_control (quote s) = true.
Proof.
  unfold quote. rewrite append_cons. cbn [no_c0_control]. rewrite no_c0_control_app.
  change ((32 <=? N_of_ascii (ascii_of_N 34))%N) with true.
  change (no_c0_control (String (ascii_of_N 34) EmptyString)) with true.
  rewrite andb_true_r. cbn [andb]. induction s as [|c s IH]; [reflexivity|].
  cbn [quote_chars]. now rewrite no_c0_control_app, no_c0_control_quote_char, IH.
Qed.

Lemma no_c0_control_join parts :
  Forall (fun p => no_c0_control p = true) parts -> no_c0_control (join "," parts) = true.
Proof.
  induction 1 as [|p parts Hp Hparts IH]; [reflexivity|].
  destruct parts as [|q parts]; [exact Hp|].
  change (join "," (p :: q :: parts)) with (p +:+ "," +:+ join "," (q :: parts)).
  now rewrite !no_c0_control_app, Hp, IH.
Qed.

(** *** The text of a number *)

Lemma no_c0_control_digit x : no_c0_control (String (pretty_N_char x) EmptyString) = true.
Proof. unfold pretty_N_char. repeat case_match; reflexivity. Qed.

Lemma no_c0_control_pretty_N_go (x : N) s :
  no_c0_control s = true -> no_c0_control (pretty_N_go x s) = true.
Proof.
  revert s. induction (N.lt_wf_0 x) as [x _ IH]; intros s Hs.
  destruct (decide (x = 0)%N) as [->|Hx].
  - now rewrite pretty_N_go_0.
  - rewrite pretty_N_go_step by lia. apply IH; [apply N.div_lt; lia|].
    change (String ?c s) with (String c EmptyString +:+ s).
    now rewrite no_c0_control_app, no_c0_control_digit, Hs.
Qed.

Lemma no_c0_control_pretty_N (x : N) : no_c0_control (pretty x) = true.
Proof.
  unfold pretty, pretty_N. case_decide; [reflexivity|].
  now apply no_c0_control_pretty_N_go.
Qed.

Lemma no_c0_control_zeros n : no_c0_control (Number.zeros n) = true.
Proof. induction n as [|n IH]; [reflexivity|]. cbn. exact IH. Qed.

Lemma no_c0_control_substring n m s :
  no_c0_control s = true -> no_c0_control (substring n m s) = true.
Proof.
  revert n m. induction s as [|c s IH]; intros n m Hs.
  - now destruct n, m.
  - cbn [no_c0_control] in Hs. apply andb_true_iff in Hs as [Hc Hs].
    destruct n as [|n]; [destruct m as [|m]|]; cbn [substring]; [reflexivity| |now apply IH].
    cbn [no_c0_control]. now rewrite Hc, IH.
Qed.

Lemma no_c0_control_layout d : no_c0_control (Number.layout d) = true.
Proof.
  unfold Number.layout.
  pose proof (no_c0_control_pretty_N (Z.to_N (Number.digits d))) as Hs.
  repeat case_match;
    rewrite ?no_c0_control_app, ?no_c0_control_zeros, ?no_c0_control_pretty_N,
      ?no_c0_control_substring by exact Hs;
    reflexivity.
Qed.

Lemma no_c0_control_toString n : no_c0_control (Number.toString n) = true.
Proof.
  unfold Number.toString. repeat case_match; try reflexivity;
    now rewrite ?no_c0_control_app, no_c0_control_layout.
Qed.

Lemma no_c0_control_stringify v : no_c0_control (stringify v) = true.
Proof.
  induction v as [|[]|n|str|items IH|props IH] using json_ind; try reflexivity.
  - cbn [stringify]. case_match; [apply no_c0_control_toString|reflexivity].
  - apply no_c0_control_quote.
  - rewrite stringify_arr, !no_c0_control_app, no_c0_control_join; [reflexivity|].
    now apply Forall_fmap.
  - rewrite stringify_obj, !no_c0_control_app, no_c0_control_join; [reflexivity|].
    apply Forall_fmap. eapply Forall_impl; [exact IH|].
    intros [k x] Hx. unfold compose. cbn [fst snd] in *.
    now rewrite !no_c0_control_app, no_c0_control_quote, Hx.
Qed.

(** Every process in the run of a request is the pipeline on the batch
    that validation returned, in the working directory of the server. *)
Lemma spawn_in_serve request host child command args directory :
  Spawn command args directory ∈ effects (serve request host child) ->
  exists body batch d,
    body_json request = Some body /\
    completion (parse BatchSchema body) = Return batch /\
    cwd host = Some d /\
    Spawn command args directory = pipeline_process host d batch.
Proof.
  assert (forall e, Spawn command args directory ∉ effects (internal_error e)) as Hinternal.
  { intros e [[=]|[]%elem_of_nil]%elem_of_cons. }
  assert (Spawn command args directory ∉ map pythonProcess_on child) as Hchild.
  { intros ([] & [=] & _)%list_elem_of_fmap. }
  destruct request as [[body|]].
  - destruct (well_formed_batch_dec body) as [Hwf|Hbad].
    + destruct (parse_well_formed body Hwf) as (items & n & _ & _ & Hp).
      rewrite (serve_validated host child body _ Hp).
      destruct (cwd host) as [d|] eqn:Hd; [|now intros ?%Hinternal].
      destruct (refusal host d _); [now intros ?%Hinternal|].
      unfold effects. cbn [fst]. intros [->|?%Hchild]%elem_of_cons; [|easy].
      exists body, (validated items n), d. auto.
    + rewrite (serve_rejects host child body Hbad).
      destruct (POST_rejects host body Hbad) as [issues ->].
      unfold effects. cbn [fst]. rewrite !elem_of_cons, elem_of_nil.
      intros [[=]|[[=]|[]]].
  - unfold serve. rewrite POST_not_json. cbn [existsb is_spawn orb app].
    now intros ?%Hinternal.
Qed.

(** X10. The JSON argument of every process a request spawns holds no
    byte below the space, whatever the strings of the body hold: no NUL
    byte, which [spawn] refuses in an argument, no tab and no line feed. *)
Theorem argument_without_control_characters request host child command args directory :
  Spawn command args directory ∈ effects (serve request host child) ->
  exists script argument,
    args = [script; argument] /\ no_c0_control argument = true.
Proof.
  intros (body & batch & d & _ & _ & _ & [= -> -> ->])%spawn_in_serve.
  eexists _, _. split; [reflexivity|]. apply no_c0_control_stringify.
Qed.

Lemma argument_without_control_characters_witness :
  exists script argument,
    ["/srv/app/src/server/python/group_flows.py";
     JSON.stringify (validated [Sample.keypress] (Number.int 1700000001000))]
    = [script; argument] /\
    no_c0_control argument = true.
Proof.
  apply (argument_without_control_characters
           {| body_json := Some Sample.polluted |} Sample.host Sample.finished
           "python3"
           ["/srv/app/src/server/python/group_flows.py";
            JSON.stringify (validated [Sample.keypress] (Number.int 1700000001000))]
           "/srv/app/src/server/python").
  vm_compute. left.
Defined.

End Argument.

(** * Beyond the claims: the edges of the handler *)

Section Paths.
Import Path Inspect.
Implicit Types (p d t : string) (kept segments : list string).

Lemma split_not_nil p : split p <> [].
Proof.
  destruct p as [|c p]; [discriminate|]. cbn [split].
  destruct (Ascii.eqb c "/"); [discriminate|]. now destruct (split p).
Qed.

Lemma split_app p t : split (p +:+ String "/" t) = split p ++ split t.
Proof.
  induction p as [|c p IH]; [reflexivity|].
  rewrite append_cons. cbn [split]. destruct (Ascii.eqb c "/"); [now rewrite IH|].
  rewrite IH. pose proof (split_not_nil p). now destruct (split p).
Qed.

Lemma ends_with_separator_app p c t :
  ends_with_separator (p +:+ String c t) = ends_with_separator (String c t).
Proof.
  induction p as [|c' p IH]; [reflexivity|].
  rewrite append_cons. rewrite <- IH.
  destruct p; reflexivity.
Qed.

Lemma resolve_plain allowAboveRoot kept segments :
  forallb plain segments = true ->
  fold_left (resolve allowAboveRoot) segments kept = rev segments ++ kept.
Proof.
  revert kept. induction segments as [|segment segments IH]; intros kept; [reflexivity|].
  cbn [forallb fold_left rev]. intros [Hs Hrest]%andb_true_iff.
  rewrite (IH _ Hrest), <- app_assoc. cbn [app]. do 2 f_equal.
  unfold resolve. unfold plain in Hs. apply negb_true_iff in Hs.
  apply orb_false_iff in Hs as [Hs ->]. now rewrite Hs.
Qed.

Lemma join_app (sep : string) (l m : list string) :
  l <> [] -> m <> [] ->
  JSON.join sep (l ++ m) = JSON.join sep l +:+ sep +:+ JSON.join sep m.
Proof.
  intros Hl Hm. induction l as [|x l IH]; [contradiction|].
  destruct l as [|x' l].
  - destruct m; [contradiction|reflexivity].
  - change (JSON.join sep ((x :: x' :: l) ++ m))
      with (x +:+ sep +:+ JSON.join sep ((x' :: l) ++ m)).
    rewrite IH by discriminate.
    change (JSON.join sep (x :: x' :: l)) with (x +:+ sep +:+ JSON.join sep (x' :: l)).
    now rewrite !append_assoc.
Qed.

Lemma join_plain_not_empty kept segment segments :
  forallb plain (segment :: segments) = true ->
  String.eqb (JSON.join "/" (kept ++ segment :: segments)) "" = false.
Proof.
  intros [Hs _]%andb_true_iff.
  assert (forall rest, String.eqb (JSON.join "/" (segment :: rest)) "" = false) as Hhead.
  { intros rest. destruct segment; [discriminate Hs|]. now destruct rest. }
  destruct kept as [|k kept]; [apply Hhead|].
  rewrite join_app by discriminate.
  specialize (Hhead segments). destruct (JSON.join "/" (segment :: segments)); [discriminate|].
  apply append_not_empty.
Qed.

(** [path.join(d, t)] for a relative path [t] of plain segments: the
    segments of [t] come after what is left of [d]. *)
Lemma path_join_plain d c t segment segments :
  starts_with_separator (String c t) = false ->
  ends_with_separator (String c t) = false ->
  split (String c t) = segment :: segments ->
  forallb plain (segment :: segments) = true ->
  path_join [d; String c t]
  = (if starts_with_separator d then "/" else "")
    +:+ JSON.join "/" (rev (base d) ++ segment :: segments).
Proof.
  intros Hstart Hend Hsplit Hplain. unfold path_join, join, base.
  destruct d as [|cd d]; cbn [List.filter String.eqb negb].
  - cbn [JSON.join]. unfold normalize, normalizeString. cbn [String.eqb].
    rewrite Hstart, Hend, Hsplit. cbn [negb starts_with_separator].
    rewrite (resolve_plain _ _ _ Hplain), rev_app_distr, rev_involutive.
    cbn [rev app]. pose proof (join_plain_not_empty [] _ _ Hplain) as Hq.
    cbn [app] in Hq. now rewrite Hq.
  - change (JSON.join "/" [String cd d; String c t])
      with (String cd d +:+ String "/" (String c t)).
    unfold normalize, normalizeString.
    rewrite split_app, fold_left_app, Hsplit, (resolve_plain _ _ _ Hplain).
    rewrite ends_with_separator_app.
    change (ends_with_separator (String "/" (String c t)))
      with (ends_with_separator (String c t)).
    rewrite Hend, append_cons. cbn [String.eqb starts_with_separator].
    rewrite rev_app_distr, rev_involutive.
    rewrite (join_plain_not_empty _ _ _ Hplain).
    destruct (Ascii.eqb cd "/"); reflexivity.
Qed.

(** A file under [src/server/python], seen from the working directory. *)
Lemma path_join_under d (file : list string) (t : string) :
  file <> [] ->
  forallb plain file = true ->
  Path.split t = ["src"; "server"; "python"] ++ file ->
  starts_with_separator t = false ->
  ends_with_separator t = false ->
  path_join [d; t] = path_join [d; "src/server/python"] +:+ "/" +:+ JSON.join "/" file.
Proof.
  intros Hfile Hplain Hsplit Hstart Hend.
  destruct t as [|c t]; [now destruct file|].
  rewrite (path_join_plain d c t "src" (["server"; "python"] ++ file))
    by (try assumption; cbn [forallb app]; now rewrite Hplain).
  rewrite (path_join_plain d "s" "rc/server/python" "src" ["server"; "python"])
    by reflexivity.
  change (rev (base d) ++ "src" :: ["server"; "python"] ++ file)
    with (rev (base d) ++ ["src"; "server"; "python"] ++ file).
  rewrite app_assoc, join_app by (try assumption; now destruct (rev (base d))).
  now rewrite !append_assoc.
Qed.

End Paths.

Section Edges.
Import z Spec Route Inspect.

(** X11. A body that is JSON but not an object (null, a boolean, a
    number, a string, an array) is answered with 400 and exactly one
    issue: an object was expected at the root, and the type of the body
    was received.  No process is started. *)
Theorem POST_body_not_an_object host body :
  getParsedType (Some body) <> object_t ->
  POST {| body_json := Some body |} host
  = ([ConsoleError [Text "Error processing request:";
                    Thrown (ZodError [{| expected := object_t;
                                         received := getParsedType (Some body);
                                         path := [] |}])];
      ConsoleLog [Text "Validation errors:";
                  Issues [{| expected := object_t;
                             received := getParsedType (Some body);
                             path := [] |}]]],
     Return {| status := 400;
               body := invalid_payload_body
                         [{| expected := object_t;
                             received := getParsedType (Some body);
                             path := [] |}] |}).
Proof.
  intros Hne. apply POST_invalid.
  destruct body; try reflexivity. now destruct Hne.
Qed.

Lemma POST_body_not_an_object_witness :
  POST {| body_json := Some (JArr [Sample.click]) |} Sample.host
  = ([ConsoleError [Text "Error processing request:";
                    Thrown (ZodError [{| expected := object_t;
                                         received := getParsedType (Some (JArr [Sample.click]));
                                         path := [] |}])];
      ConsoleLog [Text "Validation errors:";
                  Issues [{| expected := object_t;
                             received := getParsedType (Some (JArr [Sample.click]));
                             path := [] |}]]],
     Return {| status := 400;
               body := invalid_payload_body
                         [{| expected := object_t;
                             received := getParsedType (Some (JArr [Sample.click]));
                             path := [] |}] |}).
Proof.
  apply (POST_body_not_an_object Sample.host (JArr [Sample.click])). discriminate.
Defined.

(** X12. Every process a request spawns runs in the directory that
    [path.join] makes of the server's working directory and
    [src/server/python], on the script [group_flows.py] of that very
    directory; its interpreter is [venv/bin/python] of that directory when
    that file exists and [python3], to be found on the path, when it does
    not. *)
Theorem pipeline_runs_in_its_directory request host child command args directory :
  Spawn command args directory ∈ effects (serve request host child) ->
  (exists d, cwd host = Some d /\ directory = path_join [d; "src/server/python"]) /\
  (exists argument, args = [directory +:+ "/group_flows.py"; argument]) /\
  command = (if existsSync host (directory +:+ "/venv/bin/python")
             then directory +:+ "/venv/bin/python" else "python3").
Proof.
  intros (body & batch & d & _ & _ & Hd & [= -> -> ->])%spawn_in_serve.
  split; [now exists d|]. split.
  - eexists. f_equal.
    now apply (path_join_under d ["group_flows.py"]).
  - unfold pythonExecutable, venvPython.
    now rewrite (path_join_under d ["venv"; "bin"; "python"]
                   "src/server/python/venv/bin/python").
Qed.

Lemma pipeline_runs_in_its_directory_witness :
  (exists d, cwd Sample.container = Some d /\
             "/src/server/python" = path_join [d; "src/server/python"]) /\
  (exists argument,
     ["/src/server/python/group_flows.py";
      JSON.stringify (validated (events_of Sample.annotated) (Number.int 1700000001000))]
     = ["/src/server/python" +:+ "/group_flows.py"; argument]) /\
  "/src/server/python/venv/bin/python"
  = (if existsSync Sample.container ("/src/server/python" +:+ "/venv/bin/python")
     then "/src/server/python" +:+ "/venv/bin/python" else "python3").
Proof.
  apply (pipeline_runs_in_its_directory
           {| body_json := Some Sample.annotated |} Sample.container Sample.crash
           "/src/server/python/venv/bin/python"
           ["/src/server/python/group_flows.py";
            JSON.stringify (validated (events_of Sample.annotated) (Number.int 1700000001000))]
           "/src/server/python").
  vm_compute. left.
Defined.

End Edges.
